(** * latex_style_converter: a shallow embedding and its properties

    The development follows [latex_style_converter.py]:
    - Python strings are lists of Unicode code points;
    - the three regular expressions of the script are terms of a small
      backtracking matcher with the constructs the script uses
      (greedy and lazy stars, optional group, capture group, line anchor,
      negative lookahead), and [findall] / [sub] scan a subject the way
      [re.findall] / [re.sub] do;
    - [pathlib] pure paths are parsed POSIX paths;
    - the operating system is an abstract world with the primitives the
      script calls, every call being logged; a call can raise, the
      existence checks of [pathlib] included;
    - what [argparse] makes of the command line is a parameter of the
      script. *)

From Stdlib Require Import String Ascii.
From Stdlib Require Import List NArith ZArith Bool Arith Lia.
Import ListNotations.
Open Scope string_scope.
Open Scope list_scope.
Open Scope nat_scope.

(** ** Text *)

Module Text.

Definition char := N.
Definition text := list char.

(** A string literal of the script, as code points. *)
Definition txt (s : string) : text := map N_of_ascii (list_ascii_of_string s).

Definition nl : char := 10%N.
Definition percent : char := 37%N.
Definition dot : char := 46%N.
Definition slash : char := 47%N.
Definition lbracket : char := 91%N.
Definition backslash : char := 92%N.
Definition rbracket : char := 93%N.
Definition lbrace : char := 123%N.
Definition rbrace : char := 125%N.

Definition text_eqb (a b : text) : bool :=
  if list_eq_dec N.eq_dec a b then true else false.

(** [s.startswith(p)], returning the remainder. *)
Fixpoint strip_prefix (p s : text) : option text :=
  match p, s with
  | [], _ => Some s
  | a :: p', b :: s' => if N.eqb a b then strip_prefix p' s' else None
  | _ :: _, [] => None
  end.

(** [s.replace(old, new)] for a non-empty [old]: leftmost occurrences,
    not overlapping.  [skip] counts the characters of an occurrence still to
    be dropped. *)
Fixpoint replace_from (old new s : text) (skip : nat) : text :=
  match s with
  | [] => []
  | c :: t =>
      match skip with
      | S k => replace_from old new t k
      | O =>
          match strip_prefix old s with
          | Some _ => new ++ replace_from old new t (length old - 1)
          | None => c :: replace_from old new t 0
          end
      end
  end.

(** With an empty [old], [new] is put before every character and at the
    end. *)
Definition replace (old new s : text) : text :=
  match old with
  | [] => new ++ flat_map (fun c => c :: new) s
  | _ :: _ => replace_from old new s 0
  end.

(** [str(n)] for a non-negative integer. *)
Fixpoint digits_fuel (fuel : nat) (n : N) (acc : text) : text :=
  match fuel with
  | O => acc
  | S f =>
      let acc' := (48 + N.modulo n 10)%N :: acc in
      if (n <? 10)%N then acc' else digits_fuel f (N.div n 10) acc'
  end.

Definition decimal (n : nat) : text := digits_fuel (S n) (N.of_nat n) [].

(** [str(z)] for an integer. *)
Definition int_str (z : Z) : text :=
  match z with
  | Zneg p => 45%N :: decimal (Pos.to_nat p)
  | _ => decimal (Z.to_nat z)
  end.

(** [s.split(sep)] for a one-character separator. *)
Fixpoint split_on (sep : char) (s : text) : list text :=
  match s with
  | [] => [[]]
  | c :: t =>
      if N.eqb c sep then [] :: split_on sep t
      else match split_on sep t with
           | l :: ls => (c :: l) :: ls
           | [] => [[c]]
           end
  end.

(** Lines of a text: [s.split('\n')]. *)
Definition lines (s : text) : list text := split_on nl s.

(** [sep.join(ls)]. *)
Fixpoint join (sep : text) (ls : list text) : text :=
  match ls with
  | [] => []
  | [l] => l
  | l :: ls' => l ++ sep ++ join sep ls'
  end.

(** ['\n'.join(ls)]. *)
Definition unlines (ls : list text) : text := join [nl] ls.

(** [s.rfind(c)]: the index of the last [c], if any. *)
Fixpoint rfind (c : char) (s : text) : option nat :=
  match s with
  | [] => None
  | x :: t =>
      match rfind c t with
      | Some i => Some (S i)
      | None => if N.eqb x c then Some 0 else None
      end
  end.

End Text.
Import Text.

(** ** Regular expressions *)

Module Re.

(** The constructs of [re] that the script's patterns use.  Flags are
    resolved in the term: [Bol] is [^] under [re.MULTILINE]; a character
    class is a predicate, so [.] without [re.DOTALL] is [any_but_nl]. *)
Inductive re : Type :=
| Eps
| Chr (c : char)
| Cls (p : char -> bool)
| Seq (a b : re)
| Opt (a : re)                (* (?:a)?   greedy *)
| StarG (p : char -> bool)    (* [p]*     greedy *)
| StarL (p : char -> bool)    (* [p]*?    lazy *)
| Grp (a : re)                (* (a)      the capture group *)
| Bol                         (* ^        MULTILINE *)
| NLook (a : re).             (* (?!a) *)

Fixpoint lit (l : text) : re :=
  match l with
  | [] => Eps
  | c :: t => Seq (Chr c) (lit t)
  end.

Definition any_but_nl (c : char) : bool := negb (N.eqb c nl).
Definition not_rbrace (c : char) : bool := negb (N.eqb c rbrace).

(** [\s] on [str]: the code points for which [str.isspace] holds. *)
Definition is_space (c : char) : bool :=
  ((9 <=? c) && (c <=? 13) || (28 <=? c) && (c <=? 32)
   || (c =? 133) || (c =? 160) || (c =? 5760)
   || (8192 <=? c) && (c <=? 8202)
   || (c =? 8232) || (c =? 8233) || (c =? 8239) || (c =? 8287)
   || (c =? 12288))%N.

(** Matcher state: the character before the current position, the rest of
    the subject, and the text captured by the group, if it took part. *)
Record mstate : Type := MState {
  prev : option char;
  rest : text;
  grp : option text
}.

Definition advance (st : mstate) (c : char) (t : text) : mstate :=
  MState (Some c) t (grp st).

Definition at_bol (p : option char) : bool :=
  match p with
  | None => true
  | Some c => N.eqb c nl
  end.

Definition orelse {A} (x y : option A) : option A :=
  match x with
  | Some _ => x
  | None => y
  end.

(** Greedy star over one character class: take as many as possible, give
    back one at a time. *)
Fixpoint starG (p : char -> bool) (pv : option char) (s : text)
         (g : option text) (k : mstate -> option mstate) : option mstate :=
  match s with
  | c :: t =>
      if p c then orelse (starG p (Some c) t g k) (k (MState pv s g))
      else k (MState pv s g)
  | [] => k (MState pv s g)
  end.

(** Lazy star: take as few as possible, add one at a time. *)
Fixpoint starL (p : char -> bool) (pv : option char) (s : text)
         (g : option text) (k : mstate -> option mstate) : option mstate :=
  orelse (k (MState pv s g))
         (match s with
          | c :: t => if p c then starL p (Some c) t g k else None
          | [] => None
          end).

(** Backtracking matcher in continuation-passing style: [k] is the rest of
    the pattern; the first success in priority order is returned. *)
Fixpoint m (r : re) (st : mstate) (k : mstate -> option mstate)
  : option mstate :=
  match r with
  | Eps => k st
  | Chr c =>
      match rest st with
      | x :: t => if N.eqb x c then k (advance st x t) else None
      | [] => None
      end
  | Cls p =>
      match rest st with
      | x :: t => if p x then k (advance st x t) else None
      | [] => None
      end
  | Seq a b => m a st (fun st' => m b st' k)
  | Opt a => orelse (m a st k) (k st)
  | StarG p => starG p (prev st) (rest st) (grp st) k
  | StarL p => starL p (prev st) (rest st) (grp st) k
  | Grp a =>
      m a st (fun st' =>
        k (MState (prev st') (rest st')
             (Some (firstn (length (rest st) - length (rest st')) (rest st)))))
  | Bol => if at_bol (prev st) then k st else None
  | NLook a =>
      match m a st Some with
      | Some _ => None
      | None => k st
      end
  end.

(** [pattern.match] at a position: [pv] is the character before it, [s] the
    subject from it. *)
Definition re_match (r : re) (pv : option char) (s : text) : option mstate :=
  m r (MState pv s None) Some.

(** One match: how many characters it spans and what the group holds (the
    empty string when the group did not take part, as [findall] gives). *)
Record found : Type := Found { span : nat; group1 : text }.

Definition found_of (s : text) (st : mstate) : found :=
  Found (length s - length (rest st))
        (match grp st with Some g => g | None => [] end).

(** The scan shared by [findall] and [sub]: left to right, matches do not
    overlap; a character outside every match is kept ([inl]), a match is
    reported ([inr]).  [skip] counts the characters of the current match
    still to be passed.  After an empty match the scan moves one character
    on; none of the script's patterns matches the empty string. *)
Fixpoint scan (r : re) (pv : option char) (s : text) (skip : nat)
  : list (char + found) :=
  match s with
  | [] =>
      match skip with
      | O =>
          match re_match r pv [] with
          | Some st => [inr (found_of [] st)]
          | None => []
          end
      | S _ => []
      end
  | c :: t =>
      match skip with
      | S k => scan r (Some c) t k
      | O =>
          match re_match r pv s with
          | Some st =>
              let f := found_of s st in
              match span f with
              | O => inr f :: inl c :: scan r (Some c) t 0
              | S k => inr f :: scan r (Some c) t k
              end
          | None => inl c :: scan r (Some c) t 0
          end
      end
  end.

Fixpoint groups (l : list (char + found)) : list text :=
  match l with
  | [] => []
  | inl _ :: l' => groups l'
  | inr f :: l' => group1 f :: groups l'
  end.

Fixpoint substitute (repl : text) (l : list (char + found)) : text :=
  match l with
  | [] => []
  | inl c :: l' => c :: substitute repl l'
  | inr _ :: l' => repl ++ substitute repl l'
  end.

(** [re.findall(pattern, s)] for a pattern with one group. *)
Definition findall (r : re) (s : text) : list text := groups (scan r None s 0).

(** [re.sub(pattern, repl, s)] for a replacement without group
    references. *)
Definition sub (r : re) (repl s : text) : text :=
  substitute repl (scan r None s 0).

End Re.
Import Re.

(** ** The figure extractor *)

(** [\\includegraphics(?:\[.*?\])?\{(.*?)\}] *)
Definition directive_re : re :=
  Seq (lit (txt "\includegraphics"))
      (Seq (Opt (Seq (Chr lbracket) (Seq (StarL any_but_nl) (Chr rbracket))))
           (Seq (Chr lbrace) (Seq (Grp (StarL any_but_nl)) (Chr rbrace)))).

(** [r'^(?!%).*\\includegraphics(?:\[.*?\])?\{(.*?)\}'] with
    [re.MULTILINE]. *)
Definition figure_pattern : re :=
  Seq Bol (Seq (NLook (Chr percent)) (Seq (StarG any_but_nl) directive_re)).

Definition extract_figure_names (content : text) : list text :=
  findall figure_pattern content.

(** ** The text rewriter *)

(** [\\NAME\s*\{[^}]*\}]; [re.DOTALL] changes nothing, the pattern has no
    dot. *)
Definition braced_command (name : text) : re :=
  Seq (lit name)
      (Seq (StarG is_space)
           (Seq (Chr lbrace) (Seq (StarG not_rbrace) (Chr rbrace)))).

Definition graphicspath_pattern : re := braced_command (txt "\graphicspath").
Definition bibliography_pattern : re := braced_command (txt "\bibliography").

(** The replacement template [r'\\bibliography{References}'] expands to one
    backslash followed by the rest. *)
Definition bibliography_replacement : text := txt "\bibliography{References}".

Definition strip_graphicspath (content : text) : text :=
  sub graphicspath_pattern [] content.

Definition rewrite_bibliography (content : text) : text :=
  sub bibliography_pattern bibliography_replacement content.


(** ** Pure paths *)

Module Pathlib.

(** A parsed POSIX path: the root ([""], ["/"] or ["//"]) and the
    components after it. *)
Record path : Type := MkPath { root : text; parts : list text }.

Definition is_component (c : text) : bool :=
  negb (text_eqb c [] || text_eqb c [dot]).

(** [Path(s)]: empty and ["."] components are dropped; exactly two leading
    slashes are kept as a root of their own. *)
Definition Path (s : text) : path :=
  let r :=
    match s with
    | a :: b :: c :: _ =>
        if N.eqb a slash then
          if N.eqb b slash && negb (N.eqb c slash) then [slash; slash]
          else [slash]
        else []
    | [a; b] =>
        if N.eqb a slash then if N.eqb b slash then [slash; slash] else [slash]
        else []
    | [a] => if N.eqb a slash then [slash] else []
    | [] => []
    end in
  MkPath r (filter is_component (split_on slash s)).

(** [str(p)] *)
Definition path_str (p : path) : text :=
  match root p, parts p with
  | [], [] => [dot]
  | r, ps => r ++ join [slash] ps
  end.

(** [p.name]: the last component, or the empty string. *)
Definition name (p : path) : text := last (parts p) [].

(** The index splitting a name into stem and suffix: the last dot, when it
    is neither the first nor the last character. *)
Definition suffix_index (n : text) : option nat :=
  match rfind dot n with
  | Some i => if (0 <? i) && (i <? length n - 1) then Some i else None
  | None => None
  end.

(** [p.suffix] *)
Definition suffix (p : path) : text :=
  match suffix_index (name p) with
  | Some i => skipn i (name p)
  | None => []
  end.

(** [p.stem] *)
Definition stem (p : path) : text :=
  match suffix_index (name p) with
  | Some i => firstn i (name p)
  | None => name p
  end.

(** [p / s] for a string [s]: an absolute [s] replaces [p]. *)
Definition joinpath (p : path) (s : text) : path :=
  let q := Path s in
  match root q with
  | [] => MkPath (root p) (parts p ++ parts q)
  | _ :: _ => q
  end.

Definition valid_suffix (sfx : text) : bool :=
  negb (existsb (N.eqb slash) sfx)
  && match sfx with
     | [] => true
     | c :: t => N.eqb c dot && negb (text_eqb t [])
     end.

(** [p.with_suffix(sfx)]: the current suffix of the name is replaced, or
    [sfx] is appended when the name has none.  [None] stands for the
    [ValueError] raised for an invalid suffix or an empty name. *)
Definition with_suffix (p : path) (sfx : text) : option path :=
  if valid_suffix sfx then
    match name p with
    | [] => None
    | n =>
        let n' :=
          match suffix p with
          | [] => n ++ sfx
          | old => firstn (length n - length old) n ++ sfx
          end in
        Some (MkPath (root p) (removelast (parts p) ++ [n']))
    end
  else None.

End Pathlib.
Import Pathlib.

(** ** The operating system *)

Module OS.

(** The result of a call that can raise; [Raised e] carries the text of the
    exception. *)
Inductive outcome (A : Type) : Type :=
| Done (a : A)
| Raised (e : text).
Arguments Done {A} a.
Arguments Raised {A} e.

(** Calls that change the world, as they are logged. *)
Inductive event : Type :=
| Print (line : text)
| Mkdir (p : path)
| System (command : text)
| Copy (src dst : path)
| Move (src dst : path)
| Chdir (p : path)
| Write (p : path) (content : text).

Definition is_print (e : event) : bool :=
  match e with
  | Print _ => true
  | _ => false
  end.

(** Sequencing of calls that can raise: the first exception ends it. *)
Definition and_then {A B} (o : outcome A) (k : A -> outcome B) : outcome B :=
  match o with
  | Done a => k a
  | Raised e => Raised e
  end.

(** The primitives the script calls.  Queries read the world, the others
    return a new one.  [path_exists] and [path_is_dir] are [Path.exists()]
    and [Path.is_dir()]: they answer [False] when the underlying [stat]
    fails with ENOENT, ENOTDIR, EBADF or ELOOP, and raise on every other
    error, a file name that is too long for one. *)
Record os (W : Type) : Type := MkOs {
  path_exists : path -> W -> outcome bool;
  path_is_dir : path -> W -> outcome bool;
  stat_size : path -> W -> outcome N;
  read_text : path -> W -> outcome text;
  glob : text -> W -> outcome (list path);
  mkdir_parents : path -> W -> outcome unit * W;
  os_system : text -> W -> outcome Z * W;
  shutil_copy : path -> path -> W -> outcome unit * W;
  shutil_move : path -> path -> W -> outcome unit * W;
  os_chdir : path -> W -> outcome unit * W;
  write_text : path -> text -> W -> outcome unit * W
}.

Arguments MkOs {W} _ _ _ _ _ _ _ _ _ _ _.
Arguments path_exists {W} o p w.
Arguments path_is_dir {W} o p w.
Arguments stat_size {W} o p w.
Arguments read_text {W} o p w.
Arguments glob {W} o pattern w.
Arguments mkdir_parents {W} o p w.
Arguments os_system {W} o command w.
Arguments shutil_copy {W} o src dst w.
Arguments shutil_move {W} o src dst w.
Arguments os_chdir {W} o p w.
Arguments write_text {W} o p content w.

Section Monad.
Variable W : Type.

Definition state : Type := W * list event.

(** A computation: runs in a world with a log, returns or raises. *)
Definition M (A : Type) : Type := state -> outcome A * state.

Definition ret {A} (a : A) : M A := fun st => (Done a, st).

Definition bind {A B} (c : M A) (f : A -> M B) : M B :=
  fun st =>
    match c st with
    | (Done a, st') => f a st'
    | (Raised e, st') => (Raised e, st')
    end.

Definition raise {A} (e : text) : M A := fun st => (Raised e, st).

(** [try: c except Exception as e: ...] hands the outcome to the
    handler. *)
Definition try {A} (c : M A) : M (outcome A) :=
  fun st => let (r, st') := c st in (Done r, st').

Definition print (line : text) : M unit :=
  fun st => (Done tt, (fst st, snd st ++ [Print line])).

(** A call that reads the world and can raise. *)
Definition query_exn {A} (f : W -> outcome A) : M A :=
  fun st => (f (fst st), st).

Definition call {A} (ev : event) (f : W -> outcome A * W) : M A :=
  fun st => let (r, w') := f (fst st) in (r, (w', snd st ++ [ev])).

Definition of_option {A} (e : text) (o : option A) : M A :=
  match o with
  | Some a => ret a
  | None => raise e
  end.
End Monad.

Arguments ret {W A} a.
Arguments bind {W A B} c f.
Arguments raise {W A} e.
Arguments try {W A} c.
Arguments print {W} line.
Arguments query_exn {W A} f.
Arguments call {W A} ev f.
Arguments of_option {W A} e o.

Declare Scope script_scope.
Delimit Scope script_scope with script.
Notation "x <- c ;; k" := (bind c (fun x => k))
  (at level 100, c at next level, right associativity) : script_scope.
Notation "c ;; k" := (bind c (fun _ => k))
  (at level 100, right associativity) : script_scope.

End OS.
Import OS.
Open Scope script_scope.

(** ** The script *)

Section Script.
Variable W : Type.
Variable sys : os W.

Definition extensions : list text :=
  [txt ".pdf"; txt ".png"; txt ".jpg"; txt ".jpeg"].

(** The text of [ValueError("%r has an empty name" % (self,))], with the
    [repr] of a path of the POSIX flavour. *)
Definition empty_name_error (p : path) : text :=
  txt "PosixPath('" ++ path_str p ++ txt "') has an empty name".

(** How the [for ext in extensions] loop of [copy_figures] ends for one
    figure: [break] after a copy, the [else] branch, or [return False]. *)
Inductive probe_result : Type :=
| Copied
| Missing
| CopyFailed.

Fixpoint probe (exts : list text) (source_path target_path : path)
         (figure_name : text) : M W probe_result :=
  match exts with
  | [] =>
      print (txt "Warning: No matching file found for " ++ figure_name) ;;
      ret Missing
  | ext :: exts' =>
      source_file <- of_option (empty_name_error source_path)
                       (with_suffix source_path ext) ;;
      found <- query_exn (path_exists sys source_file) ;;
      if found : bool then
        target_file <- of_option (empty_name_error target_path)
                         (with_suffix target_path ext) ;;
        r <- try (call (Copy source_file target_file)
                       (shutil_copy sys source_file target_file)) ;;
        match r with
        | Done _ => ret Copied
        | Raised e =>
            print (txt "Error copying " ++ path_str source_file
                     ++ txt ": " ++ e) ;;
            ret CopyFailed
        end
      else probe exts' source_path target_path figure_name
  end.

(** The body of [for i, figure in enumerate(figures)], from index [i] on,
    and the summary after it.  [total] is [len(figures)]. *)
Fixpoint copy_loop (i : nat) (figures : list text) (figure_path : path)
         (target_dir : path) (copied_count total : nat) : M W bool :=
  match figures with
  | [] =>
      print (txt "Successfully copied " ++ decimal copied_count
               ++ txt " out of " ++ decimal total ++ txt " figures") ;;
      ret true
  | figure :: figures' =>
      let figure_name := stem (Path figure) in
      let source_path := joinpath figure_path figure_name in
      let target_path := joinpath target_dir (txt "Fig" ++ decimal (i + 1)) in
      r <- probe extensions source_path target_path figure_name ;;
      match r with
      | Copied =>
          copy_loop (S i) figures' figure_path target_dir
                    (copied_count + 1) total
      | Missing =>
          copy_loop (S i) figures' figure_path target_dir copied_count total
      | CopyFailed => ret false
      end
  end.

Definition copy_figures (figures : list text) (figure_path target_dir : path)
  : M W bool :=
  copy_loop 0 figures figure_path target_dir 0 (length figures).

(** [main_name.replace(".tex", ".aux")] *)
Definition aux_file (main_name : text) : text :=
  replace (txt ".tex") (txt ".aux") main_name.

(** The validator only reads the world; a check whose [exists()] or
    [is_dir()] raises ends it with that exception. *)
Definition validate_inputs (main_name : text) (figure_path latexpand_path : path)
           (w : W) : outcome (list text) :=
  let errors := [] in
  and_then (path_exists sys (Path main_name) w) (fun main_found =>
  let errors :=
    if negb main_found
    then errors ++ [txt "Main LaTeX file '" ++ main_name
                      ++ txt "' does not exist"]
    else errors in
  and_then (path_exists sys (Path (aux_file main_name)) w) (fun aux_found =>
  let errors :=
    if negb aux_found
    then errors ++ [txt "Auxiliary file '" ++ aux_file main_name
                      ++ txt "' does not exist. Please compile your LaTeX document first."]
    else errors in
  and_then (path_exists sys figure_path w) (fun figures_found =>
  let errors :=
    if negb figures_found
    then errors ++ [txt "Figure path '" ++ path_str figure_path
                      ++ txt "' does not exist"]
    else errors in
  and_then (path_exists sys latexpand_path w) (fun latexpand_found =>
  if negb latexpand_found
  then Done (errors ++ [txt "Latexpand executable '" ++ path_str latexpand_path
                          ++ txt "' does not exist"])
  else
    and_then (path_is_dir sys latexpand_path w) (fun is_directory =>
    if is_directory : bool
    then Done (errors ++ [txt "Latexpand path '" ++ path_str latexpand_path
                            ++ txt "' is a directory, not an executable file"])
    else Done errors))))).

Definition run_command_with_check (command description : text) : M W bool :=
  print (txt "Running: " ++ description) ;;
  r <- try (call (System command) (os_system sys command)) ;;
  match r with
  | Done result =>
      if negb (Z.eqb result 0) then
        print (txt "Error: " ++ description ++ txt " failed with exit code "
                 ++ int_str result) ;;
        ret false
      else ret true
  | Raised e =>
      print (txt "Error running " ++ description ++ txt ": " ++ e) ;;
      ret false
  end.

(** [for i, figure in enumerate(figures)]: every occurrence of the file
    name of the figure becomes [Fig<i+1>]. *)
Fixpoint rename_figures (i : nat) (figures : list text) (content : text) : text :=
  match figures with
  | [] => content
  | figure :: figures' =>
      rename_figures (S i) figures'
        (replace (name (Path figure)) (txt "Fig" ++ decimal (i + 1)) content)
  end.

Definition target_dir : path := Path (txt "transformed").
Definition tmp_tex : path := Path (txt "tmp.tex").

Definition bib_command (main_name : text) : text :=
  txt "bibexport -o " ++ path_str (joinpath target_dir (txt "References.bib"))
    ++ txt " " ++ aux_file main_name.

Definition latexpand_command (main_name : text) (latexpand_path : path) : text :=
  txt "perl " ++ path_str latexpand_path ++ txt " " ++ main_name
    ++ txt " > tmp.tex".

(** Lines 132-143: the target directory and the bibliography export, whose
    failure is only a warning. *)
Definition prepare (main_name : text) : M W unit :=
  present <- query_exn (path_exists sys target_dir) ;;
  (if negb present then
     call (Mkdir target_dir) (mkdir_parents sys target_dir) ;;
     print (txt "Created target directory: " ++ path_str target_dir)
   else ret tt) ;;
  ok <- run_command_with_check (bib_command main_name)
          (txt "bibliography export") ;;
  if negb ok then
    print (txt "Warning: Bibliography export failed. You may need to create References.bib manually.")
  else ret tt.

(** Lines 145-155: the expansion and the check of [tmp.tex]; the result is
    the value of [success]. *)
Definition expand (main_name : text) (latexpand_path : path) : M W bool :=
  ok <- run_command_with_check (latexpand_command main_name latexpand_path)
          (txt "LaTeX expansion") ;;
  if negb ok then
    print (txt "Error: Failed to merge LaTeX files") ;;
    ret false
  else
    present <- query_exn (path_exists sys tmp_tex) ;;
    unusable <- (if negb present then ret true
                 else size <- query_exn (stat_size sys tmp_tex) ;;
                      ret (N.eqb size 0)) ;;
    if unusable : bool then
      print (txt "Error: Expanded LaTeX file (tmp.tex) was not created or is empty.") ;;
      ret false
    else ret true.

(** Lines 157-166. *)
Definition load (success : bool) : M W (bool * text) :=
  if success then
    r <- try (content <- query_exn (read_text sys tmp_tex) ;;
              print (txt "Successfully read expanded LaTeX file") ;;
              ret content) ;;
    match r with
    | Done content => ret (true, content)
    | Raised e =>
        print (txt "Error reading expanded LaTeX file: " ++ e) ;;
        ret (false, [])
    end
  else ret (false, []).

(** Lines 168-178. *)
Definition extract_and_copy (success : bool) (content : text) (figure_path : path)
  : M W (bool * list text) :=
  if success then
    let figures := extract_figure_names content in
    print (txt "Found " ++ decimal (length figures) ++ txt " figures to copy") ;;
    match figures with
    | _ :: _ =>
        ok <- copy_figures figures figure_path target_dir ;;
        if negb ok then
          print (txt "Error: Failed to copy all figures") ;;
          ret (false, figures)
        else ret (true, figures)
    | [] =>
        print (txt "No figures found in the document") ;;
        ret (true, figures)
    end
  else ret (false, []).

Fixpoint copy_all (files : list path) (dst : path) : M W unit :=
  match files with
  | [] => ret tt
  | file :: files' =>
      call (Copy file dst) (shutil_copy sys file dst) ;;
      copy_all files' dst
  end.

Definition file_types : list (text * text) :=
  [(txt "*.cls", txt "class"); (txt "*.sty", txt "style");
   (txt "*.bst", txt "bibliography style")].

Fixpoint copy_style_files (types : list (text * text)) : M W unit :=
  match types with
  | [] => ret tt
  | (pattern, file_type) :: types' =>
      files <- query_exn (glob sys pattern) ;;
      match files with
      | [] => ret tt
      | _ :: _ =>
          copy_all files target_dir ;;
          print (txt "Copied " ++ decimal (length files) ++ txt " "
                   ++ file_type ++ txt " file(s)")
      end ;;
      copy_style_files types'
  end.

(** Lines 180-197. *)
Definition relocate (success : bool) : M W bool :=
  if success then
    let main_tex := joinpath target_dir (txt "Main.tex") in
    r <- try (call (Move tmp_tex main_tex) (shutil_move sys tmp_tex main_tex) ;;
              print (txt "Moved main LaTeX file to target directory") ;;
              copy_style_files file_types) ;;
    match r with
    | Done _ => ret true
    | Raised e =>
        print (txt "Error moving/copying files: " ++ e) ;;
        ret false
    end
  else ret false.

(** Lines 199-209. *)
Definition reread (success : bool) (content : text) : M W (bool * text) :=
  if success then
    let latex_file := Path (txt "Main.tex") in
    r <- try (call (Chdir target_dir) (os_chdir sys target_dir) ;;
              content' <- query_exn (read_text sys latex_file) ;;
              print (txt "Successfully read main file in target directory") ;;
              ret content') ;;
    match r with
    | Done content' => ret (true, content')
    | Raised e =>
        print (txt "Error reading main file in target directory: " ++ e) ;;
        ret (false, content)
    end
  else ret (false, content).

(** Lines 211-234. *)
Definition rewrite_main (success : bool) (content : text) (figures : list text)
  : M W bool :=
  if success then
    let latex_file := Path (txt "Main.tex") in
    let content := rename_figures 0 figures content in
    let content := strip_graphicspath content in
    let content := rewrite_bibliography content in
    r <- try (call (Write latex_file content) (write_text sys latex_file content) ;;
              print (txt "Successfully updated figure references and bibliography path")) ;;
    match r with
    | Done _ => ret true
    | Raised e =>
        print (txt "Error updating LaTeX content: " ++ e) ;;
        ret false
    end
  else ret false.

(** The stages after the expansion, each guarded by [if success:]. *)
Definition later_stages (success : bool) (figure_path : path) : M W bool :=
  sc <- load success ;;
  sf <- extract_and_copy (fst sc) (snd sc) figure_path ;;
  success <- relocate (fst sf) ;;
  sc' <- reread success (snd sc) ;;
  rewrite_main (fst sc') (snd sc') (snd sf).

(** The body of the outer [try]. *)
Definition convert (main_name : text) (figure_path latexpand_path : path)
  : M W bool :=
  prepare main_name ;;
  success <- expand main_name latexpand_path ;;
  later_stages success figure_path.

Fixpoint print_errors (errors : list text) : M W unit :=
  match errors with
  | [] => ret tt
  | error :: errors' => print (txt "  - " ++ error) ;; print_errors errors'
  end.

Definition banner (main_name : text) (figure_path latexpand_path : path)
  : M W unit :=
  print (txt "LaTeX Style Converter Starting...") ;;
  print (txt "Main file: " ++ main_name) ;;
  print (txt "Figure path: " ++ path_str figure_path) ;;
  print (txt "Latexpand path: " ++ path_str latexpand_path) ;;
  print [].

Definition final_report (success : bool) : M W nat :=
  print (nl :: repeat 61%N 50) ;;
  if success then
    print (txt "CONVERSION COMPLETE! All files are in the transformed folder.") ;;
    print (txt "Now, it is your responsibility to proofread :)") ;;
    ret 0
  else
    print (txt "CONVERSION FAILED! Please check the errors above and try again.") ;;
    print (txt "Common solutions:") ;;
    print (txt "  - Ensure you have compiled your LaTeX document (to generate .aux file)") ;;
    print (txt "  - Check that the figure path is correct") ;;
    print (txt "  - Verify the latexpand executable path (should point to the file, not directory)") ;;
    ret 1.

(** Lines 106-251: the script from the parsed arguments on.  The result is
    the status given to [sys.exit], or 0 at the end of the script; the
    validator is called outside the [try], so that an exception of its
    checks leaves the script uncaught. *)
Definition main (main_name figure_path_arg latexpand_path_arg : text) : M W nat :=
  let figure_path := Path figure_path_arg in
  let latexpand_path := Path latexpand_path_arg in
  banner main_name figure_path latexpand_path ;;
  validation_errors <- query_exn (validate_inputs main_name figure_path latexpand_path) ;;
  match validation_errors with
  | _ :: _ =>
      print (txt "Validation errors found:") ;;
      print_errors validation_errors ;;
      print (nl :: txt "Please fix these issues and try again.") ;;
      ret 1
  | [] =>
      print (txt "All inputs validated successfully!") ;;
      print (nl :: txt "Start converting...") ;;
      r <- try (convert main_name figure_path latexpand_path) ;;
      success <- match r with
                 | Done success => ret success
                 | Raised e =>
                     print (txt "Unexpected error during conversion: " ++ e) ;;
                     ret false
                 end ;;
      final_report success
  end.

(** What [parser.parse_args()] makes of the command line: the values of
    [--main_name], [--figure_path] and [--latexpand_path], or an exit of
    the process, with status 0 after [--help] and status 2 after a usage
    error.  [argparse] is a library; how it reads a command line is a
    parameter of the script, and what it writes itself is not logged. *)
Inductive parsed : Type :=
| Parsed (main_name figure_path latexpand_path : text)
| Exit (status : nat).

Variable parse_args : list text -> parsed.

(** Lines 93-251: the script run with the command line [argv]. *)
Definition script (argv : list text) : M W nat :=
  match parse_args argv with
  | Parsed main_name figure_path latexpand_path =>
      main main_name figure_path latexpand_path
  | Exit status => ret status
  end.

(** The exit status of the process: an exception that nothing catches
    ends it with status 1. *)
Definition exit_status (r : outcome nat) : nat :=
  match r with
  | Done status => status
  | Raised _ => 1
  end.

End Script.

Arguments probe {W} sys exts source_path target_path figure_name.
Arguments copy_loop {W} sys i figures figure_path target_dir copied_count total.
Arguments copy_figures {W} sys figures figure_path target_dir.
Arguments validate_inputs {W} sys main_name figure_path latexpand_path w.
Arguments run_command_with_check {W} sys command description.
Arguments prepare {W} sys main_name.
Arguments expand {W} sys main_name latexpand_path.
Arguments later_stages {W} sys success figure_path.
Arguments convert {W} sys main_name figure_path latexpand_path.
Arguments final_report {W} success.
Arguments banner {W} main_name figure_path latexpand_path.
Arguments print_errors {W} errors.
Arguments main {W} sys main_name figure_path_arg latexpand_path_arg.
Arguments script {W} sys parse_args argv.
Arguments load {W} sys success.
Arguments extract_and_copy {W} sys success content figure_path.
Arguments relocate {W} sys success.
Arguments reread {W} sys success content.
Arguments rewrite_main {W} sys success content figures.
Arguments copy_all {W} sys files dst.
Arguments copy_style_files {W} sys types.

(** ** A small file system

    A concrete world on which the script can be run: files with their
    content, directories, files that cannot be read for a copy, what the
    two external tools do, and the working directory against which a
    relative path is read.  A component of more than 255 characters, in a
    directory that is there, makes a call on the path fail with
    ENAMETOOLONG, which [exists()] and [is_dir()] do not turn into
    [False]. *)

Module SimpleFs.

Definition path_eqb (p q : path) : bool :=
  text_eqb (root p) (root q)
  && (if list_eq_dec (list_eq_dec N.eq_dec) (parts p) (parts q)
      then true else false).

Record fs : Type := MkFs {
  files : list (path * text);
  dirs : list path;
  locked : list path;
  tool : text -> Z * list (path * text);
  cwd : path
}.

(** A relative path is read from the working directory. *)
Definition resolve (w : fs) (p : path) : path :=
  match root p with
  | [] => MkPath (root (cwd w)) (parts (cwd w) ++ parts p)
  | _ :: _ => p
  end.

Fixpoint lookup (p : path) (l : list (path * text)) : option text :=
  match l with
  | [] => None
  | (q, c) :: l' => if path_eqb p q then Some c else lookup p l'
  end.

Definition is_file (p : path) (w : fs) : bool :=
  match lookup (resolve w p) (files w) with
  | Some _ => true
  | None => false
  end.

Definition is_dir (p : path) (w : fs) : bool :=
  existsb (path_eqb (resolve w p)) (dirs w).

Definition no_such_file : text := txt "No such file or directory".

(** The walk down the components [rest] of a path, from the directory
    [seen]: does it meet a name that is too long before it meets a name
    that is not a directory? *)
Fixpoint name_blocked (w : fs) (r : text) (seen rest : list text) : bool :=
  match rest with
  | [] => false
  | c :: rest' =>
      if 255 <? length c then true
      else if text_eqb c (txt "..")
              || existsb (path_eqb (MkPath r (seen ++ [c]))) (dirs w)
      then name_blocked w r (seen ++ [c]) rest'
      else false
  end.

Definition too_long (w : fs) (p : path) : bool :=
  name_blocked w (root (resolve w p)) [] (parts (resolve w p)).

Definition name_too_long (p : path) : text :=
  txt "[Errno 36] File name too long: '" ++ path_str p ++ txt "'".

(** The answer of a [stat] on [p]. *)
Definition stat {A} (w : fs) (p : path) (found : option A) : outcome A :=
  if too_long w p then Raised (name_too_long p)
  else match found with
       | Some a => Done a
       | None => Raised no_such_file
       end.

Definition add_file (p : path) (c : text) (w : fs) : fs :=
  MkFs ((resolve w p, c) :: files w) (dirs w) (locked w) (tool w) (cwd w).

Definition remove_file (p : path) (w : fs) : fs :=
  MkFs (filter (fun e => negb (path_eqb (resolve w p) (fst e))) (files w))
       (dirs w) (locked w) (tool w) (cwd w).

Definition copy (src dst : path) (w : fs) : outcome unit * fs :=
  match stat w src (lookup (resolve w src) (files w)) with
  | Done c =>
      if existsb (path_eqb (resolve w src)) (locked w)
      then (Raised (txt "Permission denied"), w)
      else if is_dir dst w
      then (Done tt, add_file (MkPath (root dst) (parts dst ++ [name src])) c w)
      else (Done tt, add_file dst c w)
  | Raised e => (Raised e, w)
  end.

Definition simple_os : os fs :=
  MkOs
    (fun p w => if too_long w p then Raised (name_too_long p)
                else Done (is_file p w || is_dir p w))
    (fun p w => if too_long w p then Raised (name_too_long p)
                else Done (is_dir p w))
    (fun p w => stat w p (option_map (fun c => N.of_nat (length c))
                            (lookup (resolve w p) (files w))))
    (fun p w => stat w p (lookup (resolve w p) (files w)))
    (fun _ _ => Done [])
    (fun p w => (Done tt,
                 MkFs (files w) (resolve w p :: dirs w) (locked w) (tool w) (cwd w)))
    (fun command w =>
       (Done (fst (tool w command)),
        MkFs (map (fun e => (resolve w (fst e), snd e)) (snd (tool w command))
                ++ files w)
             (dirs w) (locked w) (tool w) (cwd w)))
    copy
    (fun src dst w =>
       match copy src dst w with
       | (Done _, w') => (Done tt, remove_file src w')
       | (Raised e, w') => (Raised e, w')
       end)
    (fun p w =>
       if is_dir p w
       then (Done tt, MkFs (files w) (dirs w) (locked w) (tool w) (resolve w p))
       else (Raised no_such_file, w))
    (fun p c w => (Done tt, add_file p c w)).

Definition here : path := Path (txt ".").

(** A project whose document was never compiled: [Main.aux] is missing. *)
Definition uncompiled : fs :=
  MkFs [(Path (txt "Main.tex"), txt "\documentclass{article}");
        (Path (txt "../latexpand"), txt "#!/usr/bin/perl")]
       [Path (txt "../Figures")] [] (fun _ => (0%Z, [])) here.

(** A compiled project whose expansion tool exits with status 0 and writes
    an empty [tmp.tex]. *)
Definition silent_expander : fs :=
  MkFs [(Path (txt "Main.tex"), txt "\documentclass{article}");
        (Path (txt "Main.aux"), txt "\relax");
        (Path (txt "../latexpand"), txt "#!/usr/bin/perl")]
       [Path (txt "../Figures")] []
       (fun command =>
          match strip_prefix (txt "perl ") command with
          | Some _ => (0%Z, [(Path (txt "tmp.tex"), [])])
          | None => (0%Z, [])
          end)
       here.

(** A figure directory where [b.png] cannot be read and nothing is called
    [a]. *)
Definition locked_figure : fs :=
  MkFs [(Path (txt "figs/b.png"), txt "PNG"); (Path (txt "figs/c.png"), txt "PNG")]
       [Path (txt "figs"); Path (txt "transformed")]
       [Path (txt "figs/b.png")] (fun _ => (0%Z, [])) here.

(** A figure directory holding [plot.v2.png] and no other file. *)
Definition dotted_figure : fs :=
  MkFs [(Path (txt "figs/plot.v2.png"), txt "PNG")]
       [Path (txt "figs"); Path (txt "transformed")] [] (fun _ => (0%Z, [])) here.

(** A figure directory holding [plot.png] and no other file. *)
Definition other_figure : fs :=
  MkFs [(Path (txt "figs/plot.png"), txt "PNG")]
       [Path (txt "figs"); Path (txt "transformed")] [] (fun _ => (0%Z, [])) here.

(** A compiled project whose main document is [paper.text.tex]. *)
Definition dotted_project : fs :=
  MkFs [(Path (txt "paper.text.tex"), txt "\documentclass{article}");
        (Path (txt "paper.text.aux"), txt "\relax");
        (Path (txt "../latexpand"), txt "#!/usr/bin/perl")]
       [Path (txt "../Figures")] [] (fun _ => (0%Z, [])) here.

End SimpleFs.

(** ** Vocabulary of the properties *)

(** *** Commands with a braced argument *)

Fixpoint drop_while (p : char -> bool) (s : text) : text :=
  match s with
  | c :: t => if p c then drop_while p t else s
  | [] => []
  end.

(** A command [name], white space, [{], an argument without [}], [}]. *)
Definition is_command (name d : text) : Prop :=
  exists ws arg,
    d = name ++ ws ++ lbrace :: arg ++ [rbrace]
    /\ forallb is_space ws = true
    /\ forallb not_rbrace arg = true.

(** The text after the command that starts [s], when one does. *)
Definition command_end (name s : text) : option text :=
  match strip_prefix name s with
  | Some t =>
      match drop_while is_space t with
      | c :: u =>
          if N.eqb c lbrace then
            match drop_while not_rbrace u with
            | _ :: v => Some v
            | [] => None
            end
          else None
      | [] => None
      end
  | None => None
  end.

(** Does a command start somewhere in [s]? *)
Fixpoint has_command (name s : text) : bool :=
  match command_end name s with
  | Some _ => true
  | None =>
      match s with
      | [] => false
      | _ :: t => has_command name t
      end
  end.

(** [rewritten name repl s out]: [out] is [s] read from left to right, with
    every command [name] met replaced by [repl] and every other character
    kept. *)
Inductive rewritten (name repl : text) : text -> text -> Prop :=
| rw_end : rewritten name repl [] []
| rw_command d t out :
    is_command name d ->
    rewritten name repl t out ->
    rewritten name repl (d ++ t) (repl ++ out)
| rw_char c t out :
    (forall d r, is_command name d -> c :: t <> d ++ r) ->
    rewritten name repl t out ->
    rewritten name repl (c :: t) (c :: out).

(** *** Figure directives *)

Definition capture (st : mstate) : text :=
  match grp st with
  | Some g => g
  | None => []
  end.

(** The path argument of the figure directive that starts [s], when one
    does. *)
Definition directive_at (s : text) : option text :=
  option_map capture (re_match directive_re None s).

(** The argument of the directive that starts last in [l]. *)
Fixpoint last_directive (l : text) : option text :=
  match l with
  | [] => directive_at []
  | _ :: t => orelse (last_directive t) (directive_at l)
  end.

Definition option_list {A} (o : option A) : list A :=
  match o with
  | Some a => [a]
  | None => []
  end.

(** The arguments of all the directives of [l], by where they start. *)
Fixpoint all_directives (l : text) : list text :=
  match l with
  | [] => []
  | _ :: t => option_list (directive_at l) ++ all_directives t
  end.

Definition is_comment (l : text) : bool :=
  match l with
  | c :: _ => N.eqb c percent
  | [] => false
  end.

Definition code_lines (s : text) : list text :=
  filter (fun l => negb (is_comment l)) (lines s).

(** What one line contributes to the extractor's result. *)
Definition line_figure (l : text) : list text :=
  if is_comment l then [] else option_list (last_directive l).

(** The arguments of the directives on the lines that are not comments, in
    document order. *)
Definition directive_arguments (s : text) : list text :=
  flat_map all_directives (code_lines s).

Definition extracts_every_directive (s : text) : Prop :=
  extract_figure_names s = directive_arguments s.

Definition one_directive_per_line (s : text) : bool :=
  forallb (fun l => length (all_directives l) <=? 1) (code_lines s).

(** The state of the matcher after [l] has been consumed. *)
Definition prev_after (pv : option char) (l : text) : option char :=
  last (map Some l) pv.

(** *** Lines and the matcher *)

(** A pattern that cannot consume a newline. *)
Fixpoint line_local (r : re) : bool :=
  match r with
  | Eps | Bol => true
  | Chr c => negb (N.eqb c nl)
  | Cls p | StarG p | StarL p => negb (p nl)
  | Seq a b => line_local a && line_local b
  | Opt a | Grp a | NLook a => line_local a
  end.

(** What may follow a line: the end of the text or a newline. *)
Definition boundary (X : text) : Prop :=
  match X with
  | [] => True
  | c :: _ => c = nl
  end.

(** The matcher state, seen from a subject that goes on with [X]. *)
Definition ext (X : text) (st : mstate) : mstate :=
  MState (prev st) (rest st ++ X) (grp st).

(** What the scan finds after the line it stands in. *)
Definition after_line (X : text) : list text :=
  match X with
  | [] => []
  | _ :: R => groups (scan figure_pattern (Some nl) R 0)
  end.

(** *** Names *)

(** A file name without a slash or a dot, and not empty. *)
Definition plain_name (n : text) : bool :=
  negb (text_eqb n [])
  && forallb (fun c => negb (N.eqb c slash) && negb (N.eqb c dot)) n.

(** The file [n] in the directory [p]. *)
Definition child (p : path) (n : text) : path :=
  MkPath (root p) (parts p ++ [n]).

(** Does [old] occur in [s]? *)
Fixpoint occurs (old s : text) : bool :=
  match strip_prefix old s with
  | Some _ => true
  | None =>
      match s with
      | [] => false
      | _ :: t => occurs old t
      end
  end.

(** *** The validator and the pipeline *)

Definition check (ok : bool) (message : text) : list text :=
  if ok then [] else [message].

Definition main_file_message (main_name : text) : text :=
  txt "Main LaTeX file '" ++ main_name ++ txt "' does not exist".

Definition aux_file_message (main_name : text) : text :=
  txt "Auxiliary file '" ++ aux_file main_name
    ++ txt "' does not exist. Please compile your LaTeX document first.".

Definition figure_path_message (figure_path : path) : text :=
  txt "Figure path '" ++ path_str figure_path ++ txt "' does not exist".

Definition latexpand_missing_message (latexpand_path : path) : text :=
  txt "Latexpand executable '" ++ path_str latexpand_path ++ txt "' does not exist".

Definition latexpand_directory_message (latexpand_path : path) : text :=
  txt "Latexpand path '" ++ path_str latexpand_path
    ++ txt "' is a directory, not an executable file".

Section PipelineVocabulary.
Variable W : Type.
Variable sys : os W.

(** The four checks of [validate_inputs], each from the answers about its
    own path. *)
Definition main_file_errors (main_name : text) (w : W) : outcome (list text) :=
  and_then (path_exists sys (Path main_name) w) (fun found =>
  Done (check found (main_file_message main_name))).

Definition aux_file_errors (main_name : text) (w : W) : outcome (list text) :=
  and_then (path_exists sys (Path (aux_file main_name)) w) (fun found =>
  Done (check found (aux_file_message main_name))).

Definition figure_path_errors (figure_path : path) (w : W) : outcome (list text) :=
  and_then (path_exists sys figure_path w) (fun found =>
  Done (check found (figure_path_message figure_path))).

Definition latexpand_errors (latexpand_path : path) (w : W) : outcome (list text) :=
  and_then (path_exists sys latexpand_path w) (fun found =>
  if found : bool
  then and_then (path_is_dir sys latexpand_path w) (fun is_directory =>
       Done (check (negb is_directory) (latexpand_directory_message latexpand_path)))
  else Done [latexpand_missing_message latexpand_path]).

(** The run up to the call of the expansion tool, when the inputs are
    valid. *)
Definition before_expansion (main_name : text) (figure_path latexpand_path : path)
  : M W unit :=
  banner main_name figure_path latexpand_path ;;
  print (txt "All inputs validated successfully!") ;;
  print (nl :: txt "Start converting...") ;;
  prepare sys main_name.

(** The tool run in [w] reports a status other than zero, or reports zero
    and leaves [tmp.tex] missing or of size zero. *)
Definition expansion_failed (main_name : text) (latexpand_path : path) (w : W)
  : bool :=
  match os_system sys (latexpand_command main_name latexpand_path) w with
  | (Done status, w') =>
      negb (Z.eqb status 0)
      || match path_exists sys tmp_tex w' with
         | Done true =>
             match stat_size sys tmp_tex w' with
             | Done size => N.eqb size 0
             | Raised _ => false
             end
         | Done false => true
         | Raised _ => false
         end
  | (Raised _, _) => false
  end.

(** The state in which the bibliography export is called: the target
    directory was there, or has just been made. *)
Definition target_ready (st : state W) : option (state W) :=
  match path_exists sys target_dir (fst st) with
  | Done true => Some st
  | Done false =>
      match mkdir_parents sys target_dir (fst st) with
      | (Done _, w') =>
          Some (w', snd st ++ [Mkdir target_dir;
                               Print (txt "Created target directory: "
                                        ++ path_str target_dir)])
      | (Raised _, _) => None
      end
  | Raised _ => None
  end.

(** What the preparation prints after the call of the bibliography export
    that returned [r]. *)
Definition export_report (r : outcome Z) : list event :=
  match r with
  | Done status =>
      if Z.eqb status 0 then []
      else [Print (txt "Error: bibliography export failed with exit code "
                     ++ int_str status);
            Print (txt "Warning: Bibliography export failed. You may need to create References.bib manually.")]
  | Raised e =>
      [Print (txt "Error running bibliography export: " ++ e);
       Print (txt "Warning: Bibliography export failed. You may need to create References.bib manually.")]
  end.

(** No file [base ++ ext], for [ext] among [exts], exists in the
    directory. *)
Definition no_candidate (exts : list text) (figure_path : path) (base : text)
           (w : W) : bool :=
  forallb (fun ext =>
             match path_exists sys (child figure_path (base ++ ext)) w with
             | Done found => negb found
             | Raised _ => false
             end) exts.

(** The first of [exts], in order, for which [base ++ ext] exists in the
    directory. *)
Fixpoint first_candidate (exts : list text) (figure_path : path) (base : text)
         (w : W) : option text :=
  match exts with
  | [] => None
  | ext :: exts' =>
      match path_exists sys (child figure_path (base ++ ext)) w with
      | Done true => Some ext
      | Done false => first_candidate exts' figure_path base w
      | Raised _ => None
      end
  end.

(** The exception of the first probe for [base ++ ext] that raises, when
    the probes before it have found nothing. *)
Fixpoint raising_candidate (exts : list text) (figure_path : path) (base : text)
         (w : W) : option text :=
  match exts with
  | [] => None
  | ext :: exts' =>
      match path_exists sys (child figure_path (base ++ ext)) w with
      | Done true => None
      | Done false => raising_candidate exts' figure_path base w
      | Raised e => Some e
      end
  end.

Definition warning_line (figure : text) : event :=
  Print (txt "Warning: No matching file found for " ++ stem (Path figure)).

Definition copy_error_line (src : path) (e : text) : event :=
  Print (txt "Error copying " ++ path_str src ++ txt ": " ++ e).

End PipelineVocabulary.

Arguments main_file_errors {W} sys main_name w.
Arguments aux_file_errors {W} sys main_name w.
Arguments figure_path_errors {W} sys figure_path w.
Arguments latexpand_errors {W} sys latexpand_path w.
Arguments before_expansion {W} sys main_name figure_path latexpand_path.
Arguments expansion_failed {W} sys main_name latexpand_path w.
Arguments target_ready {W} sys st.
Arguments no_candidate {W} sys exts figure_path base w.
Arguments first_candidate {W} sys exts figure_path base w.
Arguments raising_candidate {W} sys exts figure_path base w.

(** *** Sample inputs *)

Definition two_on_a_line : text :=
  txt "\includegraphics{a}\includegraphics{b}".

Definition sample_document : text :=
  txt "\includegraphics[width=3cm]{plots/a}"
    ++ nl :: txt "% \includegraphics{old}"
    ++ nl :: txt "see \includegraphics{plots/a} here".

Definition split_graphicspath : text :=
  txt "\graphics\graphicspath{a}path{b}".

Definition sample_preamble : text :=
  txt "\graphicspath{{figs/}}" ++ nl :: txt "\begin{document}".

(** A bibliography directive whose argument runs over two lines. *)
Definition multiline_directive : text :=
  txt "\bibliography{../Library," ++ nl :: txt "  extra}".

Definition sample_bibliography : text :=
  txt "\cite{a}" ++ nl :: multiline_directive ++ nl :: txt "\end{document}".

(** The state in which the expansion tool is called in
    [SimpleFs.silent_expander]. *)
Definition before_silent_expansion : state SimpleFs.fs :=
  snd (before_expansion SimpleFs.simple_os (txt "Main.tex")
         (Path (txt "../Figures")) (Path (txt "../latexpand"))
         (SimpleFs.silent_expander, [])).

(** *** The text of a figure directive *)

Definition includegraphics : text := txt "\includegraphics".

Definition options_text (o : option text) : text :=
  match o with
  | Some o' => lbracket :: o' ++ [rbracket]
  | None => []
  end.

(** [\includegraphics{p}] or [\includegraphics[o]{p}]. *)
Definition directive_text (o : option text) (p : text) : text :=
  includegraphics ++ options_text o ++ lbrace :: p ++ [rbrace].

Definition no_backslash (s : text) : bool :=
  forallb (fun c => negb (N.eqb c backslash)) s.

Definition no_rbracket (s : text) : bool :=
  forallb (fun c => negb (N.eqb c rbracket)) s.

(** *** Events of the copier *)

Definition is_copy (e : event) : bool :=
  match e with
  | Copy _ _ => true
  | _ => false
  end.

Definition summary_line (copied total : nat) : event :=
  Print (txt "Successfully copied " ++ decimal copied ++ txt " out of "
           ++ decimal total ++ txt " figures").

(** *** Lines and texts of the later stages *)

Definition read_line : event :=
  Print (txt "Successfully read expanded LaTeX file").

Definition found_line (n : nat) : event :=
  Print (txt "Found " ++ decimal n ++ txt " figures to copy").

(** The text written to [Main.tex]: figure names renamed, search path
    stripped, bibliography repointed. *)
Definition rewritten_text (figures : list text) (content : text) : text :=
  rewrite_bibliography (strip_graphicspath (rename_figures 0 figures content)).

Definition updated_line : event :=
  Print (txt "Successfully updated figure references and bibliography path").

Definition reread_line : event :=
  Print (txt "Successfully read main file in target directory").

(** Where [tmp.tex] is moved to. *)
Definition transformed_main : path := joinpath target_dir (txt "Main.tex").

(** The text [\base{arg}]. *)
Definition command_text (base arg : text) : text :=
  (backslash :: base) ++ lbrace :: arg ++ [rbrace].

(** *** Sample worlds and runs *)

(** Two figures in the figure directory. *)
Definition two_figures : SimpleFs.fs :=
  SimpleFs.MkFs
    [(Path (txt "figs/a.png"), txt "PNG"); (Path (txt "figs/c.pdf"), txt "PDF")]
    [Path (txt "figs"); Path (txt "transformed")] [] (fun _ => (0%Z, []))
    SimpleFs.here.

Definition two_figures_copied : outcome bool * state SimpleFs.fs :=
  copy_figures SimpleFs.simple_os [txt "a"; txt "b"; txt "sub/c.pdf"]
               (Path (txt "figs")) target_dir (two_figures, []).

(** The reference [plot.v2.png] in a figure directory that holds
    [plot.png] only. *)
Definition other_copy : outcome bool * state SimpleFs.fs :=
  copy_figures SimpleFs.simple_os [txt "plot.v2.png"] (Path (txt "figs"))
               target_dir (SimpleFs.other_figure, []).

(** The run on the project whose main document is [paper.text.tex]. *)
Definition dotted_run : outcome nat * state SimpleFs.fs :=
  main SimpleFs.simple_os (txt "paper.text.tex") (txt "../Figures")
       (txt "../latexpand") (SimpleFs.dotted_project, []).

(** A compiled project on a machine without [bibexport]. *)
Definition no_bibexport : SimpleFs.fs :=
  SimpleFs.MkFs
    [(Path (txt "Main.tex"), txt "\documentclass{article}");
     (Path (txt "Main.aux"), txt "\relax")]
    [] []
    (fun command =>
       match strip_prefix (txt "bibexport") command with
       | Some _ => (127%Z, [])
       | None => (0%Z, [])
       end)
    SimpleFs.here.

(** The state in which the bibliography export is called there: the
    target directory has just been made. *)
Definition no_bibexport_ready : state SimpleFs.fs :=
  (snd (mkdir_parents SimpleFs.simple_os target_dir no_bibexport),
   [Mkdir target_dir;
    Print (txt "Created target directory: " ++ path_str target_dir)]).

(** A name of 300 characters, longer than a file name can be. *)
Definition long_name : text := repeat 97%N 300.

(** An expanded document whose one figure cannot be read. *)
Definition locked_with_tmp : SimpleFs.fs :=
  SimpleFs.MkFs
    [(Path (txt "tmp.tex"), txt "\includegraphics{b}");
     (Path (txt "figs/b.png"), txt "PNG")]
    [Path (txt "figs"); Path (txt "transformed")]
    [Path (txt "figs/b.png")] (fun _ => (0%Z, [])) SimpleFs.here.

Definition locked_copy : outcome bool * state SimpleFs.fs :=
  copy_figures SimpleFs.simple_os [txt "b"] (Path (txt "figs")) target_dir
               (locked_with_tmp, [] ++ [read_line; found_line 1]).

(** A project on which the whole run succeeds. *)
Definition working_project : SimpleFs.fs :=
  SimpleFs.MkFs
    [(Path (txt "Main.tex"), txt "\input{body}");
     (Path (txt "Main.aux"), txt "\relax");
     (Path (txt "../latexpand"), txt "#!/usr/bin/perl");
     (Path (txt "../Figures/plot.png"), txt "PNG")]
    [Path (txt "../Figures")] []
    (fun command =>
       match strip_prefix (txt "perl ") command with
       | Some _ =>
           (0%Z, [(Path (txt "tmp.tex"),
                   txt "\includegraphics{plot}" ++ nl :: txt "\bibliography{refs}")])
       | None => (0%Z, [])
       end)
    SimpleFs.here.

Definition working_run : outcome nat * state SimpleFs.fs :=
  main SimpleFs.simple_os (txt "Main.tex") (txt "../Figures") (txt "../latexpand")
       (working_project, []).

(** * Properties *)

(** ** Text *)

Section TextFacts.

Lemma text_eqb_eq (a b : text) : text_eqb a b = true <-> a = b.
Proof.
  unfold text_eqb. destruct (list_eq_dec N.eq_dec a b); split; congruence.
Qed.

Lemma strip_prefix_app (p t : text) : strip_prefix p (p ++ t) = Some t.
Proof.
  induction p as [|a p IH]; simpl; [reflexivity|].
  now rewrite N.eqb_refl.
Qed.

Lemma strip_prefix_Some (p s t : text) :
  strip_prefix p s = Some t -> s = p ++ t.
Proof.
  revert s. induction p as [|a p IH]; intros [|b s]; simpl; try congruence.
  destruct (N.eqb_spec a b); [|discriminate].
  intros H. subst. f_equal. now apply IH.
Qed.

Lemma drop_while_app (p : char -> bool) (a b : text) :
  forallb p a = true ->
  drop_while p (a ++ b) = drop_while p b.
Proof.
  induction a as [|c a IH]; simpl; [reflexivity|].
  intros H. apply andb_prop in H as [Hc Ha]. rewrite Hc. auto.
Qed.

Lemma drop_while_split (p : char -> bool) (s : text) :
  exists a, s = a ++ drop_while p s /\ forallb p a = true.
Proof.
  induction s as [|c s [a [E F]]]; simpl.
  - exists []. auto.
  - destruct (p c) eqn:Hc.
    + exists (c :: a). simpl. rewrite Hc, F. split; [congruence | reflexivity].
    + exists []. auto.
Qed.

Lemma drop_while_head (p : char -> bool) (s : text) (c : char) (t : text) :
  drop_while p s = c :: t -> p c = false.
Proof.
  induction s as [|x s IH]; simpl; [discriminate|].
  destruct (p x) eqn:Hx; [assumption|].
  intros H. injection H as -> _. assumption.
Qed.

Lemma prev_after_cons (pv : option char) (c : char) (l : text) :
  prev_after pv (c :: l) = prev_after (Some c) l.
Proof.
  unfold prev_after. revert pv c.
  induction l as [|x l IH]; intros pv c; [reflexivity|].
  change (last (map Some (c :: x :: l)) pv) with (last (map Some (x :: l)) pv).
  rewrite (IH pv x). symmetry. apply (IH (Some c) x).
Qed.

End TextFacts.

(** ** The matcher *)

Section MatcherFacts.

Lemma orelse_None_r {A} (x : option A) : orelse x None = x.
Proof. now destruct x. Qed.

Lemma m_lit (l : text) (st : mstate) (k : mstate -> option mstate) :
  m (lit l) st k =
  match strip_prefix l (rest st) with
  | Some t => k (MState (prev_after (prev st) l) t (grp st))
  | None => None
  end.
Proof.
  revert st. induction l as [|c l IH]; intros [pv s g]; simpl.
  - reflexivity.
  - destruct s as [|x s]; [reflexivity|].
    rewrite (N.eqb_sym c x). destruct (N.eqb_spec x c) as [->|_]; [|reflexivity].
    rewrite IH. simpl. rewrite prev_after_cons. reflexivity.
Qed.

(** A greedy star never has to give a character back when the pattern goes
    on with a character outside its class. *)
Lemma starG_then_chr (p : char -> bool) (c : char) (k : mstate -> option mstate)
      (pv : option char) (s : text) (g : option text) :
  p c = false ->
  starG p pv s g (fun st => m (Chr c) st k) =
  match drop_while p s with
  | x :: t => if N.eqb x c then k (MState (Some x) t g) else None
  | [] => None
  end.
Proof.
  intros Hc. revert pv. induction s as [|x s IH]; intros pv; simpl; [reflexivity|].
  destruct (p x) eqn:Hx; simpl.
  - rewrite IH. destruct (N.eqb_spec x c) as [->|_]; [congruence|].
    apply orelse_None_r.
  - reflexivity.
Qed.

Lemma not_rbrace_rbrace : not_rbrace rbrace = false.
Proof. reflexivity. Qed.

Lemma is_space_lbrace : is_space lbrace = false.
Proof. reflexivity. Qed.

(** The pattern [\\NAME\s*\{[^}]*\}] matches exactly where a command
    starts, up to the first closing brace. *)
Lemma re_match_braced_command (name : text) (pv : option char) (s : text) :
  re_match (braced_command name) pv s =
  option_map (fun t => MState (Some rbrace) t None) (command_end name s).
Proof.
  unfold re_match, braced_command, command_end.
  change (m (Seq (lit name) ?r) ?st ?k) with (m (lit name) st (fun st' => m r st' k)).
  rewrite m_lit. simpl rest.
  destruct (strip_prefix name s) as [t|]; [|reflexivity].
  change (m (Seq (StarG is_space) (Seq (Chr lbrace) ?r)) ?st ?k)
    with (starG is_space (prev st) (rest st) (grp st)
            (fun st' => m (Chr lbrace) st' (fun st'' => m r st'' k))).
  rewrite starG_then_chr by apply is_space_lbrace. cbn [prev rest grp].
  destruct (drop_while is_space t) as [|x u]; [reflexivity|].
  destruct (N.eqb x lbrace); [|reflexivity].
  change (m (Seq (StarG not_rbrace) (Chr rbrace)) ?st ?k)
    with (starG not_rbrace (prev st) (rest st) (grp st)
            (fun st' => m (Chr rbrace) st' k)).
  rewrite starG_then_chr by apply not_rbrace_rbrace. cbn [prev rest grp].
  destruct (drop_while not_rbrace u) as [|y v] eqn:E; [reflexivity|].
  apply drop_while_head in E. unfold not_rbrace in E.
  apply negb_false_iff in E. apply N.eqb_eq in E. subst y. reflexivity.
Qed.

End MatcherFacts.

(** ** Substitution of commands with a braced argument *)

Section CommandFacts.
Variable name : text.

Lemma command_end_shape (s t : text) :
  command_end name s = Some t <-> exists d, is_command name d /\ s = d ++ t.
Proof.
  unfold command_end, is_command. split.
  - destruct (strip_prefix name s) as [s1|] eqn:E1; [|discriminate].
    apply strip_prefix_Some in E1.
    destruct (drop_while_split is_space s1) as [ws [E2 Hws]].
    destruct (drop_while is_space s1) as [|c u]; [discriminate|].
    destruct (N.eqb_spec c lbrace) as [->|_]; [|discriminate].
    destruct (drop_while_split not_rbrace u) as [arg [E3 Harg]].
    destruct (drop_while not_rbrace u) as [|y v] eqn:E4; [discriminate|].
    apply drop_while_head in E4. apply negb_false_iff, N.eqb_eq in E4. subst y.
    intros [= <-]. exists (name ++ ws ++ lbrace :: arg ++ [rbrace]). split.
    + exists ws, arg. auto.
    + rewrite E1, E2, E3. now rewrite <- !app_assoc, <- !app_comm_cons, <- app_assoc.
  - intros [d [[ws [arg [-> [Hws Harg]]]] ->]].
    rewrite <- !app_assoc, strip_prefix_app.
    rewrite drop_while_app by assumption. simpl.
    rewrite <- app_assoc, drop_while_app by assumption. reflexivity.
Qed.

Lemma command_end_shorter (s t : text) :
  command_end name s = Some t -> length t + 2 <= length s.
Proof.
  intros H. apply command_end_shape in H as [d [[ws [arg [-> _]]] ->]].
  rewrite !length_app. simpl. rewrite !length_app. simpl. lia.
Qed.

Lemma has_command_cons (c : char) (t : text) :
  has_command name (c :: t) =
  match command_end name (c :: t) with
  | Some _ => true
  | None => has_command name t
  end.
Proof. reflexivity. Qed.

Lemma has_command_nil : has_command name [] = false.
Proof.
  simpl. destruct (command_end name []) eqn:E; [|reflexivity].
  apply command_end_shorter in E. simpl in E. lia.
Qed.

(** [has_command] finds the commands wherever they stand. *)
Lemma has_command_occurs (s : text) :
  has_command name s = true <->
  exists a d b, is_command name d /\ s = a ++ d ++ b.
Proof.
  split.
  - induction s as [|c s IH].
    + rewrite has_command_nil. discriminate.
    + rewrite has_command_cons.
      destruct (command_end name (c :: s)) as [t|] eqn:E.
      * intros _. apply command_end_shape in E as [d [Hd E]].
        exists [], d, t. auto.
      * intros H. destruct (IH H) as [a [d [b [Hd ->]]]].
        exists (c :: a), d, b. auto.
  - intros [a [d [b [Hd ->]]]]. induction a as [|c a IH].
    + simpl app. assert (E : command_end name (d ++ b) = Some b)
        by (apply command_end_shape; eauto).
      destruct (d ++ b); simpl; now rewrite E.
    + simpl app. rewrite has_command_cons, IH. now destruct (command_end _ _).
Qed.

Variable repl : text.

Lemma scan_match (r : re) (pv : option char) (c : char) (t : text) (st : mstate) :
  re_match r pv (c :: t) = Some st ->
  scan r pv (c :: t) 0 =
  let f := found_of (c :: t) st in
  match span f with
  | O => inr f :: inl c :: scan r (Some c) t 0
  | S k => inr f :: scan r (Some c) t k
  end.
Proof. intros H. simpl. now rewrite H. Qed.

Lemma scan_skip (r : re) (a b : text) (pv : option char) :
  scan r pv (a ++ b) (length a) = scan r (prev_after pv a) b 0.
Proof.
  revert pv. induction a as [|c a IH]; intros pv; [reflexivity|].
  simpl. rewrite IH. now rewrite prev_after_cons.
Qed.

(** The pattern has no anchor: where the scan stands in the subject does
    not matter. *)
Lemma scan_braced_prev (pv pv' : option char) (s : text) (skip : nat) :
  scan (braced_command name) pv s skip = scan (braced_command name) pv' s skip.
Proof.
  revert pv pv' skip. induction s as [|c s IH]; intros pv pv' skip.
  - simpl. now rewrite !re_match_braced_command.
  - simpl. rewrite !re_match_braced_command. reflexivity.
Qed.

Lemma sub_nil : sub (braced_command name) repl [] = [].
Proof.
  unfold sub. simpl. rewrite re_match_braced_command.
  destruct (command_end name []) eqn:E; [|reflexivity].
  apply command_end_shorter in E. simpl in E. lia.
Qed.

Lemma sub_char (c : char) (t : text) :
  command_end name (c :: t) = None ->
  sub (braced_command name) repl (c :: t) = c :: sub (braced_command name) repl t.
Proof.
  intros E. unfold sub. simpl. rewrite re_match_braced_command, E. simpl.
  now rewrite (scan_braced_prev (Some c) None).
Qed.

Lemma sub_command (s t : text) :
  command_end name s = Some t ->
  sub (braced_command name) repl s = repl ++ sub (braced_command name) repl t.
Proof.
  intros E. pose proof (command_end_shorter _ _ E) as Hlen.
  pose proof E as E'. apply command_end_shape in E' as [d [_ ->]].
  destruct d as [|c d]; [simpl in Hlen; lia|].
  assert (Hm : re_match (braced_command name) None ((c :: d) ++ t)
               = Some (MState (Some rbrace) t None))
    by (now rewrite re_match_braced_command, E).
  unfold sub. rewrite <- app_comm_cons in *. rewrite (scan_match _ _ _ _ _ Hm).
  assert (Hs : span (found_of (c :: d ++ t) (MState (Some rbrace) t None))
               = S (length d)).
  { unfold found_of. cbn [span rest].
    change (length (c :: d ++ t)) with (S (length (d ++ t))).
    rewrite length_app. lia. }
  cbv zeta. rewrite Hs. cbn [substitute]. rewrite scan_skip.
  now rewrite (scan_braced_prev _ None).
Qed.

Lemma sub_rewritten (s : text) :
  rewritten name repl s (sub (braced_command name) repl s).
Proof.
  remember (length s) as n eqn:Hn. revert s Hn.
  induction n as [n IH] using lt_wf_ind. intros s Hn.
  destruct s as [|c t].
  - rewrite sub_nil. constructor.
  - destruct (command_end name (c :: t)) as [u|] eqn:E.
    + rewrite (sub_command _ _ E).
      pose proof (command_end_shorter _ _ E) as Hlen.
      apply command_end_shape in E as [d [Hd E]]. rewrite E.
      apply rw_command; [assumption|].
      apply (IH (length u)); [lia | reflexivity].
    + rewrite (sub_char _ _ E). apply rw_char.
      * intros d r Hd Heq.
        assert (command_end name (c :: t) = Some r)
          by (apply command_end_shape; eauto).
        congruence.
      * apply (IH (length t)); [simpl in Hn; lia | reflexivity].
Qed.

Lemma sub_no_command (s : text) :
  has_command name s = false -> sub (braced_command name) repl s = s.
Proof.
  induction s as [|c t IH]; [intros _; apply sub_nil|].
  rewrite has_command_cons.
  destruct (command_end name (c :: t)) eqn:E; [discriminate|].
  intros H. rewrite (sub_char _ _ E). f_equal. auto.
Qed.

End CommandFacts.

Section StripFacts.
Variable name : text.

Lemma strip_length_le (s : text) :
  length (sub (braced_command name) [] s) <= length s.
Proof.
  remember (length s) as n eqn:Hn. revert s Hn.
  induction n as [n IH] using lt_wf_ind. intros s Hn.
  destruct s as [|c t].
  - rewrite sub_nil. simpl. lia.
  - destruct (command_end name (c :: t)) as [u|] eqn:E.
    + rewrite (sub_command _ _ _ _ E). simpl.
      pose proof (command_end_shorter _ _ _ E) as Hlen.
      specialize (IH (length u) ltac:(lia) u eq_refl). lia.
    + rewrite (sub_char _ _ _ _ E). simpl.
      specialize (IH (length t) ltac:(simpl in Hn; lia) t eq_refl).
      simpl in Hn. lia.
Qed.

Lemma strip_length_lt (s : text) :
  has_command name s = true ->
  length (sub (braced_command name) [] s) < length s.
Proof.
  induction s as [|c t IH].
  - rewrite has_command_nil. discriminate.
  - rewrite has_command_cons.
    destruct (command_end name (c :: t)) as [u|] eqn:E.
    + intros _. rewrite (sub_command _ _ _ _ E). simpl.
      pose proof (command_end_shorter _ _ _ E) as Hlen.
      pose proof (strip_length_le u). simpl in Hlen. lia.
    + intros H. rewrite (sub_char _ _ _ _ E). simpl. specialize (IH H). lia.
Qed.

End StripFacts.

(** ** Matching within a line *)

Section LineFacts.

Lemma firstn_ext (a b X : text) :
  firstn (length (a ++ X) - length (b ++ X)) (a ++ X)
  = firstn (length a - length b) a.
Proof.
  rewrite !length_app.
  replace (length a + length X - (length b + length X)) with (length a - length b) by lia.
  rewrite firstn_app.
  replace (length a - length b - length a) with 0 by lia.
  simpl. apply app_nil_r.
Qed.

Lemma starG_local (p : char -> bool) (X : text) (k k' : mstate -> option mstate) :
  p nl = false -> boundary X ->
  (forall st, k (ext X st) = option_map (ext X) (k' st)) ->
  forall s pv g,
    starG p pv (s ++ X) g k = option_map (ext X) (starG p pv s g k').
Proof.
  intros Hp HX Hk. induction s as [|c s IH]; intros pv g.
  - simpl app. cbn [starG]. rewrite <- (Hk (MState pv [] g)). unfold ext. simpl.
    destruct X as [|x X']; [reflexivity|].
    simpl in HX. subst x. simpl. now rewrite Hp.
  - change ((c :: s) ++ X) with (c :: (s ++ X)). cbn [starG]. rewrite IH.
    change (MState pv (c :: s ++ X) g) with (ext X (MState pv (c :: s) g)).
    rewrite Hk. destruct (p c); [|reflexivity].
    now destruct (starG p (Some c) s g k').
Qed.

Lemma starL_local (p : char -> bool) (X : text) (k k' : mstate -> option mstate) :
  p nl = false -> boundary X ->
  (forall st, k (ext X st) = option_map (ext X) (k' st)) ->
  forall s pv g,
    starL p pv (s ++ X) g k = option_map (ext X) (starL p pv s g k').
Proof.
  intros Hp HX Hk. induction s as [|c s IH]; intros pv g.
  - simpl app. destruct X as [|x X'].
    + cbn [starL]. rewrite !orelse_None_r. apply (Hk (MState pv [] g)).
    + simpl in HX. subst x. cbn [starL]. rewrite Hp, !orelse_None_r.
      apply (Hk (MState pv [] g)).
  - change ((c :: s) ++ X) with (c :: (s ++ X)). cbn [starL]. rewrite IH.
    change (MState pv (c :: s ++ X) g) with (ext X (MState pv (c :: s) g)).
    rewrite Hk. destruct (k' (MState pv (c :: s) g)); [reflexivity|]. simpl.
    now destruct (p c).
Qed.

(** A pattern that cannot consume a newline matches a line the same way
    whatever follows the line. *)
Lemma m_local (r : re) (X : text) :
  line_local r = true -> boundary X ->
  forall st k k',
    (forall st', k (ext X st') = option_map (ext X) (k' st')) ->
    m r (ext X st) k = option_map (ext X) (m r st k').
Proof.
  intros Hr HX. induction r as [|c|p|a IHa b IHb|a IHa|p|p|a IHa| |a IHa];
    intros st k k' Hk; simpl in Hr.
  - apply Hk.
  - simpl. destruct st as [pv [|y t] g]; simpl.
    + destruct X as [|x X']; [reflexivity|]. simpl in HX. subst x.
      apply negb_true_iff in Hr. rewrite N.eqb_sym. now rewrite Hr.
    + destruct (N.eqb y c); [|reflexivity]. apply (Hk (MState (Some y) t g)).
  - simpl. destruct st as [pv [|y t] g]; simpl.
    + destruct X as [|x X']; [reflexivity|]. simpl in HX. subst x.
      apply negb_true_iff in Hr. now rewrite Hr.
    + destruct (p y); [|reflexivity]. apply (Hk (MState (Some y) t g)).
  - apply andb_prop in Hr as [Ha Hb]. simpl.
    apply IHa; [assumption|]. intros st'. now apply IHb.
  - simpl. rewrite (IHa Hr st k k' Hk), Hk.
    now destruct (m a st k').
  - apply negb_true_iff in Hr. simpl. now apply starG_local.
  - apply negb_true_iff in Hr. simpl. now apply starL_local.
  - simpl. apply IHa; [assumption|]. intros st'.
    cbn [ext prev rest]. rewrite firstn_ext.
    apply (Hk (MState (prev st') (rest st')
                 (Some (firstn (length (rest st) - length (rest st')) (rest st))))).
  - simpl. destruct (at_bol (prev st)); [apply Hk | reflexivity].
  - simpl. rewrite (IHa Hr st Some Some) by reflexivity.
    destruct (m a st Some); [reflexivity | apply Hk].
Qed.

Lemma re_match_local (r : re) (X : text) (pv : option char) (l : text) :
  line_local r = true -> boundary X ->
  re_match r pv (l ++ X) = option_map (ext X) (re_match r pv l).
Proof.
  intros Hr HX. unfold re_match.
  now apply (m_local r X Hr HX (MState pv l None) Some Some).
Qed.

Lemma lines_split (s : text) :
  exists l,
    forallb any_but_nl l = true
    /\ ((s = l /\ lines s = [l])
        \/ exists R, s = l ++ nl :: R /\ lines s = l :: lines R).
Proof.
  unfold lines. induction s as [|c s [l [Hl IH]]].
  - exists []. split; [reflexivity|]. left. auto.
  - simpl. destruct (N.eqb_spec c nl) as [->|Hc].
    + exists []. split; [reflexivity|]. right. exists s. auto.
    + exists (c :: l). split.
      * simpl. rewrite Hl. unfold any_but_nl.
        apply N.eqb_neq in Hc. now rewrite Hc.
      * destruct IH as [[-> ->]|[R [-> ->]]]; [left | right; exists R]; auto.
Qed.

Lemma lines_of_line (l : text) :
  forallb any_but_nl l = true -> lines l = [l].
Proof.
  unfold lines. induction l as [|c l IH]; [reflexivity|].
  simpl. intros H. apply andb_prop in H as [Hc Hl].
  unfold any_but_nl in Hc. apply negb_true_iff in Hc. rewrite Hc.
  now rewrite (IH Hl).
Qed.

Lemma lines_nl_free (s : text) :
  Forall (fun l => forallb any_but_nl l = true) (lines s).
Proof.
  unfold lines. induction s as [|c s IH]; simpl.
  - repeat constructor.
  - destruct (N.eqb_spec c nl) as [->|Hc].
    + constructor; [reflexivity | assumption].
    + destruct (split_on nl s) as [|l ls].
      * repeat constructor. simpl. unfold any_but_nl.
        apply N.eqb_neq in Hc. now rewrite Hc.
      * inversion IH as [|? ? Hl Hls]; subst. constructor; [|assumption].
        simpl. rewrite Hl. unfold any_but_nl.
        apply N.eqb_neq in Hc. now rewrite Hc.
Qed.

End LineFacts.

(** ** The extractor, line by line *)

Section ExtractorFacts.

Lemma figure_pattern_local : line_local figure_pattern = true.
Proof. reflexivity. Qed.

Lemma option_map_orelse {A B} (f : A -> B) (x y : option A) :
  option_map f (orelse x y) = orelse (option_map f x) (option_map f y).
Proof. now destruct x. Qed.

(** The directive starts with a literal: the character before it is not
    looked at. *)
Lemma directive_prev (pv pv' : option char) (s : text) (g : option text)
      (k : mstate -> option mstate) :
  m directive_re (MState pv s g) k = m directive_re (MState pv' s g) k.
Proof.
  unfold directive_re.
  change (m (Seq (lit ?l) ?r) ?st k) with (m (lit l) st (fun st' => m r st' k)).
  rewrite !m_lit. cbn [prev rest grp].
  change (txt "\includegraphics") with (backslash :: txt "includegraphics").
  now rewrite !(prev_after_cons _ backslash).
Qed.

(** The greedy [.*] in front of the directive gives characters back from
    the end of the line: the directive found is the one that starts
    last. *)
Lemma starG_last_directive (l : text) (pv : option char) :
  forallb any_but_nl l = true ->
  option_map capture
    (starG any_but_nl pv l None (fun st => m directive_re st Some))
  = last_directive l.
Proof.
  revert pv. induction l as [|c l IH]; intros pv Hl.
  - cbn [starG last_directive]. unfold directive_at, re_match.
    now rewrite (directive_prev pv None).
  - simpl in Hl. apply andb_prop in Hl as [Hc Hl]. cbn [starG last_directive].
    rewrite Hc, option_map_orelse, IH by assumption.
    unfold directive_at, re_match. now rewrite (directive_prev pv None).
Qed.

Lemma re_match_figure_line (l : text) (pv : option char) :
  forallb any_but_nl l = true -> at_bol pv = true ->
  option_list (option_map capture (re_match figure_pattern pv l)) = line_figure l.
Proof.
  intros Hl Hpv. unfold re_match, figure_pattern, line_figure.
  cbn [m prev rest grp]. rewrite Hpv.
  destruct l as [|c l].
  - simpl. reflexivity.
  - cbn [is_comment]. destruct (N.eqb c percent); [reflexivity|].
    now rewrite starG_last_directive.
Qed.

Lemma re_match_figure_nil (pv : option char) :
  at_bol pv = true -> re_match figure_pattern pv [] = None.
Proof.
  intros H. unfold re_match, figure_pattern. cbn [m prev]. now rewrite H.
Qed.

Lemma re_match_figure_midline (pv : option char) (s : text) :
  at_bol pv = false -> re_match figure_pattern pv s = None.
Proof.
  intros H. unfold re_match, figure_pattern. cbn [m prev]. now rewrite H.
Qed.

Lemma any_but_nl_midline (c : char) :
  any_but_nl c = true -> at_bol (Some c) = false.
Proof. unfold any_but_nl. simpl. apply negb_true_iff. Qed.

Lemma groups_scan_rest_of_line (X : text) :
  boundary X ->
  forall t k pv,
    forallb any_but_nl t = true -> at_bol pv = false -> k <= length t ->
    groups (scan figure_pattern pv (t ++ X) k) = after_line X.
Proof.
  intros HX. induction t as [|x t IH]; intros k pv Ht Hpv Hk.
  - simpl in Hk. assert (k = 0) by lia. subst k. simpl app.
    destruct X as [|c R]; simpl.
    + now rewrite re_match_figure_midline.
    + simpl in HX. subst c. now rewrite re_match_figure_midline.
  - simpl in Ht. apply andb_prop in Ht as [Hx Ht].
    pose proof (any_but_nl_midline x Hx) as Hx'.
    destruct k as [|k]; simpl.
    + rewrite re_match_figure_midline by assumption. simpl.
      apply IH; [assumption | assumption | lia].
    + apply IH; [assumption | assumption | simpl in Hk; lia].
Qed.

Lemma groups_scan_line (X : text) (l : text) (pv : option char) :
  boundary X -> forallb any_but_nl l = true -> at_bol pv = true ->
  groups (scan figure_pattern pv (l ++ X) 0) = line_figure l ++ after_line X.
Proof.
  intros HX Hl Hpv.
  rewrite <- (re_match_figure_line l pv Hl Hpv).
  pose proof (re_match_local figure_pattern X pv l figure_pattern_local HX) as E.
  destruct l as [|c t].
  - pose proof (re_match_figure_nil pv Hpv) as E0. rewrite E0 in *.
    simpl app in *. destruct X as [|x R]; simpl.
    + now rewrite E0.
    + simpl in HX. subst x. simpl in E. now rewrite E.
  - simpl in Hl. apply andb_prop in Hl as [Hc Ht].
    pose proof (any_but_nl_midline c Hc) as Hc'.
    change ((c :: t) ++ X) with (c :: (t ++ X)) in *.
    destruct (re_match figure_pattern pv (c :: t)) as [st|] eqn:Em.
    + simpl in E. rewrite (scan_match _ _ _ _ _ E). cbv zeta.
      assert (Hs : span (found_of (c :: t ++ X) (ext X st))
                   = S (length t) - length (rest st)).
      { unfold found_of, ext. cbn [span rest].
        change (length (c :: t ++ X)) with (S (length (t ++ X))).
        rewrite !length_app. lia. }
      assert (Hg : group1 (found_of (c :: t ++ X) (ext X st)) = capture st)
        by reflexivity.
      destruct (span (found_of (c :: t ++ X) (ext X st))) as [|k] eqn:Ek;
        cbn [groups]; rewrite Hg; simpl; f_equal;
        apply groups_scan_rest_of_line; auto; lia.
    + simpl in E. simpl. rewrite E. simpl.
      apply groups_scan_rest_of_line; auto; lia.
Qed.

(** The extractor works line by line: a comment line gives nothing, any
    other line gives the argument of the directive that starts last in it,
    if it has one. *)
Lemma findall_figure_lines (s : text) (pv : option char) :
  at_bol pv = true ->
  groups (scan figure_pattern pv s 0) = flat_map line_figure (lines s).
Proof.
  remember (length s) as n eqn:Hn. revert s pv Hn.
  induction n as [n IH] using lt_wf_ind. intros s pv Hn Hpv.
  destruct (lines_split s) as [l [Hl [[-> ->]|[R [-> ->]]]]].
  - rewrite <- (app_nil_r l) at 1.
    rewrite (groups_scan_line [] l pv I Hl Hpv). reflexivity.
  - rewrite (groups_scan_line (nl :: R) l pv eq_refl Hl Hpv).
    cbn [flat_map after_line]. f_equal.
    apply (IH (length R)); [|reflexivity|reflexivity].
    subst n. rewrite length_app. simpl. lia.
Qed.

Lemma extract_by_line (s : text) :
  extract_figure_names s = flat_map line_figure (lines s).
Proof. apply (findall_figure_lines s None). reflexivity. Qed.

End ExtractorFacts.

(** ** The shape of a figure directive *)

Section DirectiveShape.

(** A lazy star passes over the characters at which the rest of the
    pattern fails. *)
Lemma starL_skip (q : char -> bool) (k : mstate -> option mstate)
      (b : text) (g : option text) (a : text) (pv : option char) :
  forallb q a = true ->
  (forall a1 x a2 pv', a = a1 ++ x :: a2 -> k (MState pv' (x :: a2 ++ b) g) = None) ->
  starL q pv (a ++ b) g k = starL q (prev_after pv a) b g k.
Proof.
  revert pv. induction a as [|c a IH]; intros pv Hq Hk; [reflexivity|].
  simpl in Hq. apply andb_prop in Hq as [Hc Ha].
  change ((c :: a) ++ b) with (c :: (a ++ b)). cbn [starL].
  rewrite (Hk [] c a pv eq_refl), Hc. cbn [orelse].
  rewrite IH, prev_after_cons; [reflexivity | assumption |].
  intros a1 x a2 pv' E. apply (Hk (c :: a1) x a2 pv'). now rewrite E.
Qed.

Lemma starL_here (q : char -> bool) (k : mstate -> option mstate)
      (s : text) (g : option text) (pv : option char) (st : mstate) :
  k (MState pv s g) = Some st -> starL q pv s g k = Some st.
Proof. intros H. destruct s; cbn [starL]; now rewrite H. Qed.

Lemma firstn_of_app (p t : text) (c : char) :
  firstn (length (p ++ c :: t) - length (c :: t)) (p ++ c :: t) = p.
Proof.
  rewrite length_app.
  replace (length p + length (c :: t) - length (c :: t)) with (length p + 0) by lia.
  rewrite firstn_app_2. simpl. apply app_nil_r.
Qed.

Lemma m_chr_cons (c x : char) (t : text) (pv : option char) (g : option text)
      (k : mstate -> option mstate) :
  m (Chr c) (MState pv (x :: t) g) k
  = if N.eqb x c then k (MState (Some x) t g) else None.
Proof. reflexivity. Qed.

Lemma m_seq (a b : re) (st : mstate) (k : mstate -> option mstate) :
  m (Seq a b) st k = m a st (fun st' => m b st' k).
Proof. reflexivity. Qed.

Lemma m_opt (a : re) (st : mstate) (k : mstate -> option mstate) :
  m (Opt a) st k = orelse (m a st k) (k st).
Proof. reflexivity. Qed.

Lemma m_starL (q : char -> bool) (st : mstate) (k : mstate -> option mstate) :
  m (StarL q) st k = starL q (prev st) (rest st) (grp st) k.
Proof. reflexivity. Qed.

Lemma m_grp (a : re) (st : mstate) (k : mstate -> option mstate) :
  m (Grp a) st k
  = m a st (fun st' =>
      k (MState (prev st') (rest st')
           (Some (firstn (length (rest st) - length (rest st')) (rest st))))).
Proof. reflexivity. Qed.

Lemma forallb_mid (q : char -> bool) (a1 a2 : text) (x : char) :
  forallb q (a1 ++ x :: a2) = true -> q x = true.
Proof.
  rewrite forallb_app. intros H. apply andb_prop in H as [_ H].
  simpl in H. now apply andb_prop in H as [H _].
Qed.

(** The braced argument: the group takes the characters up to the first
    closing brace. *)
Lemma braced_argument (p t : text) (pv : option char) (g : option text) :
  forallb any_but_nl p = true -> forallb not_rbrace p = true ->
  m (Seq (Chr lbrace) (Seq (Grp (StarL any_but_nl)) (Chr rbrace)))
    (MState pv (lbrace :: p ++ rbrace :: t) g) Some
  = Some (MState (Some rbrace) t (Some p)).
Proof.
  intros Hnl Hp. rewrite m_seq, m_chr_cons, N.eqb_refl, m_seq, m_grp, m_starL.
  cbn [prev rest grp]. rewrite starL_skip; [|assumption|].
  - apply starL_here. cbn [prev rest grp].
    rewrite m_chr_cons, N.eqb_refl. now rewrite firstn_of_app.
  - intros a1 x a2 pv' E. cbn [prev rest grp]. rewrite m_chr_cons.
    rewrite E in Hp. apply forallb_mid in Hp.
    unfold not_rbrace in Hp. apply negb_true_iff in Hp. now rewrite Hp.
Qed.

(** [\includegraphics{p}]: the argument is captured up to the first
    closing brace of the line. *)
Lemma directive_at_plain (p t : text) :
  forallb any_but_nl p = true -> forallb not_rbrace p = true ->
  directive_at (txt "\includegraphics" ++ lbrace :: p ++ rbrace :: t) = Some p.
Proof.
  intros Hnl Hp. unfold directive_at, re_match, directive_re.
  rewrite m_seq, m_lit. cbn [rest prev grp]. rewrite strip_prefix_app.
  rewrite m_seq, m_opt, m_seq, m_chr_cons.
  change (N.eqb lbrace lbracket) with false. cbn [orelse].
  now rewrite braced_argument.
Qed.

(** [\includegraphics[o]{p}] with options [o] free of [\]]. *)
Lemma directive_at_options (o p t : text) :
  forallb any_but_nl o = true ->
  forallb (fun c => negb (N.eqb c rbracket)) o = true ->
  forallb any_but_nl p = true -> forallb not_rbrace p = true ->
  directive_at (txt "\includegraphics" ++ lbracket :: o ++ rbracket
                  :: lbrace :: p ++ rbrace :: t) = Some p.
Proof.
  intros Hol Ho Hnl Hp. unfold directive_at, re_match, directive_re.
  rewrite m_seq, m_lit. cbn [rest prev grp]. rewrite strip_prefix_app.
  rewrite m_seq, m_opt, m_seq, m_chr_cons, N.eqb_refl, m_seq, m_starL.
  cbn [prev rest grp]. rewrite starL_skip; [|assumption|].
  - rewrite (starL_here _ _ _ _ _ (MState (Some rbrace) t (Some p)));
      [reflexivity|].
    rewrite m_chr_cons, N.eqb_refl. now rewrite braced_argument.
  - intros a1 x a2 pv' E. rewrite m_chr_cons.
    rewrite E in Ho. apply forallb_mid in Ho.
    apply negb_true_iff in Ho. now rewrite Ho.
Qed.

End DirectiveShape.

(** ** What the extractor returns *)

Section ExtractorClaims.

Lemma directive_at_nil : directive_at [] = None.
Proof. reflexivity. Qed.

Lemma single_directive_is_last (l : text) :
  length (all_directives l) <= 1 ->
  option_list (last_directive l) = all_directives l.
Proof.
  induction l as [|c t IH]; [reflexivity|].
  cbn [all_directives last_directive]. rewrite length_app.
  destruct (directive_at (c :: t)) as [x|]; cbn [option_list length app]; intros H.
  - assert (E : all_directives t = [])
      by (destruct (all_directives t); [reflexivity | simpl in H; lia]).
    rewrite E in *. specialize (IH ltac:(simpl; lia)).
    destruct (last_directive t); [discriminate | reflexivity].
  - rewrite <- (IH H). now rewrite orelse_None_r.
Qed.

Lemma line_figure_single (ls : list text) :
  forallb (fun l => length (all_directives l) <=? 1)
          (filter (fun l => negb (is_comment l)) ls) = true ->
  flat_map line_figure ls
  = flat_map all_directives (filter (fun l => negb (is_comment l)) ls).
Proof.
  induction ls as [|l ls IH]; [reflexivity|].
  cbn [flat_map filter]. unfold line_figure at 1.
  destruct (is_comment l); cbn [negb]; [exact IH|].
  cbn [forallb flat_map]. intros H. apply andb_prop in H as [Hl Hls].
  apply Nat.leb_le in Hl. rewrite (single_directive_is_last l Hl).
  f_equal. auto.
Qed.

(** C1 (amended): for every document text in which no line that is not a
    comment holds more than one figure directive, the extractor returns the
    path arguments of all the directives on those lines, in document order
    and with duplicates: as many entries as there are directives. *)
Theorem extract_figure_names_one_per_line (s : text) :
  one_directive_per_line s = true ->
  extract_figure_names s = directive_arguments s.
Proof.
  intros H. rewrite extract_by_line. now apply line_figure_single.
Qed.

Lemma extract_figure_names_one_per_line_witness :
  one_directive_per_line sample_document = true
  /\ extract_figure_names sample_document = [txt "plots/a"; txt "plots/a"]
  /\ extract_figure_names sample_document = directive_arguments sample_document.
Proof.
  split; [reflexivity|]. split; [reflexivity|].
  apply (extract_figure_names_one_per_line sample_document). reflexivity.
Defined.

(** C1 (as stated) fails: of two directives on one line, one entry is
    returned. *)
Lemma extract_figure_names_drops_directive :
  ~ extracts_every_directive two_on_a_line.
Proof. unfold extracts_every_directive. vm_compute. discriminate. Qed.

Lemma extract_of_line (l : text) :
  forallb any_but_nl l = true -> extract_figure_names l = line_figure l.
Proof.
  intros H. rewrite extract_by_line, (lines_of_line l H). simpl.
  apply app_nil_r.
Qed.

Lemma comment_lines_dropped (ls : list text) :
  Forall (fun l => forallb any_but_nl l = true) ls ->
  flat_map line_figure ls
  = flat_map extract_figure_names (filter (fun l => negb (is_comment l)) ls).
Proof.
  induction 1 as [|l ls Hl _ IH]; [reflexivity|].
  cbn [flat_map filter]. unfold line_figure at 1.
  destruct (is_comment l) eqn:E; cbn [negb]; [exact IH|].
  cbn [flat_map]. rewrite (extract_of_line l Hl). unfold line_figure at 2.
  rewrite E. now f_equal.
Qed.

(** C9: a line whose first character is [%] never contributes an entry,
    whatever follows on it: the result for a document is made of the results
    for its lines that do not begin with [%]. *)
Theorem extract_figure_names_skips_comment_lines (s : text) :
  extract_figure_names s = flat_map extract_figure_names (code_lines s).
Proof.
  rewrite extract_by_line. apply comment_lines_dropped, lines_nl_free.
Qed.

Lemma line_figure_at_most_one (l : text) : length (line_figure l) <= 1.
Proof.
  unfold line_figure. destruct (is_comment l); [simpl; lia|].
  destruct (last_directive l); simpl; lia.
Qed.

Lemma flat_map_length_le (ls : list text) :
  length (flat_map line_figure ls) <= length ls.
Proof.
  induction ls as [|l ls IH]; [simpl; lia|].
  cbn [flat_map]. rewrite length_app.
  pose proof (line_figure_at_most_one l). simpl. lia.
Qed.

(** C10: the extractor returns at most one reference per line; on a line
    that is not a comment and holds several directives, the entry is the
    argument of the directive that starts last, the others are dropped. *)
Theorem extract_figure_names_last_of_line (s : text) :
  extract_figure_names s = flat_map line_figure (lines s)
  /\ (forall l, length (line_figure l) <= 1)
  /\ length (extract_figure_names s) <= length (lines s).
Proof.
  split; [apply extract_by_line|]. split; [apply line_figure_at_most_one|].
  rewrite extract_by_line. apply flat_map_length_le.
Qed.

End ExtractorClaims.

(** ** What the rewriter does *)

Section RewriterClaims.

(** C3: the bibliography rewrite replaces each [\bibliography{...}]
    directive met from left to right, whether its argument holds newlines or
    not, by exactly the text [\bibliography{References}], keeps every other
    character, and returns a text without such a directive unchanged; a
    text that starts with a directive is rewritten to
    [\bibliography{References}] followed by the rewriting of what comes
    after the directive. *)
Theorem rewrite_bibliography_spec (s : text) :
  rewritten (txt "\bibliography") (txt "\bibliography{References}") s
            (rewrite_bibliography s)
  /\ (has_command (txt "\bibliography") s = false ->
      rewrite_bibliography s = s)
  /\ (forall t, command_end (txt "\bibliography") s = Some t ->
      rewrite_bibliography s
      = txt "\bibliography{References}" ++ rewrite_bibliography t).
Proof.
  split; [apply sub_rewritten | split; [apply sub_no_command|]].
  intros t E. exact (sub_command _ _ s t E).
Qed.

Lemma rewrite_bibliography_spec_witness :
  (has_command (txt "\bibliography") sample_preamble = false
   /\ rewrite_bibliography sample_preamble = sample_preamble)
  /\ rewrite_bibliography (multiline_directive ++ nl :: txt "\end{document}")
     = txt "\bibliography{References}"
         ++ rewrite_bibliography (nl :: txt "\end{document}")
  /\ rewritten (txt "\bibliography") (txt "\bibliography{References}")
               sample_bibliography
               (txt "\cite{a}" ++ nl :: txt "\bibliography{References}"
                  ++ nl :: txt "\end{document}").
Proof.
  split; [|split].
  - exact (conj eq_refl
             (proj1 (proj2 (rewrite_bibliography_spec sample_preamble)) eq_refl)).
  - exact (proj2 (proj2 (rewrite_bibliography_spec
                           (multiline_directive ++ nl :: txt "\end{document}")))
             (nl :: txt "\end{document}") eq_refl).
  - exact (proj1 (rewrite_bibliography_spec sample_bibliography)).
Defined.

(** C4 (as stated) fails: removing a directive can join the text around it
    into a new directive, which only a second pass removes. *)
Lemma strip_graphicspath_not_idempotent :
  strip_graphicspath (strip_graphicspath split_graphicspath)
  <> strip_graphicspath split_graphicspath.
Proof. vm_compute. discriminate. Qed.

(** C4 (amended): a text without a search-path directive is left unchanged
    by the strip; stripping twice gives the same as stripping once exactly
    when the text stripped once holds no directive. *)
Theorem strip_graphicspath_twice (s : text) :
  (has_command (txt "\graphicspath") s = false -> strip_graphicspath s = s)
  /\ (strip_graphicspath (strip_graphicspath s) = strip_graphicspath s
      <-> has_command (txt "\graphicspath") (strip_graphicspath s) = false).
Proof.
  split; [apply sub_no_command|]. split.
  - intros E. destruct (has_command _ (strip_graphicspath s)) eqn:H; [|reflexivity].
    apply strip_length_lt in H. unfold strip_graphicspath in *.
    unfold graphicspath_pattern in *. rewrite E in H. lia.
  - apply sub_no_command.
Qed.

Lemma strip_graphicspath_twice_witness :
  has_command (txt "\graphicspath") (strip_graphicspath sample_preamble) = false
  /\ strip_graphicspath (strip_graphicspath sample_preamble)
     = strip_graphicspath sample_preamble.
Proof.
  split; [reflexivity|].
  apply (proj2 (proj2 (strip_graphicspath_twice sample_preamble))). reflexivity.
Defined.

End RewriterClaims.

(** ** The validator *)

Section ValidatorClaims.
Variable W : Type.
Variable sys : os W.

(** The validator runs its four checks one after the other and joins what
    they report. *)
Lemma validate_inputs_checks (main_name : text) (figure_path latexpand_path : path)
      (w : W) :
  validate_inputs sys main_name figure_path latexpand_path w
  = and_then (main_file_errors sys main_name w) (fun e1 =>
    and_then (aux_file_errors sys main_name w) (fun e2 =>
    and_then (figure_path_errors sys figure_path w) (fun e3 =>
    and_then (latexpand_errors sys latexpand_path w) (fun e4 =>
    Done (e1 ++ e2 ++ e3 ++ e4))))).
Proof.
  unfold validate_inputs, main_file_errors, aux_file_errors,
    figure_path_errors, latexpand_errors, check, and_then.
  destruct (path_exists sys (Path main_name) w) as [[|]|e1]; [| |reflexivity];
    (destruct (path_exists sys (Path (aux_file main_name)) w) as [[|]|e2];
     [| |reflexivity]);
    (destruct (path_exists sys figure_path w) as [[|]|e3]; [| |reflexivity]);
    (destruct (path_exists sys latexpand_path w) as [[|]|e4];
     [|reflexivity|reflexivity]);
    (destruct (path_is_dir sys latexpand_path w) as [[|]|e5]; reflexivity).
Qed.

Lemma print_errors_prints (errors : list text) (st : state W) :
  exists prints,
    print_errors errors st = (Done tt, (fst st, snd st ++ prints))
    /\ forallb is_print prints = true.
Proof.
  revert st. induction errors as [|e errors IH]; intros [w log].
  - exists []. simpl. unfold ret. now rewrite app_nil_r.
  - destruct (IH (w, log ++ [Print (txt "  - " ++ e)])) as [prints [E H]].
    exists (Print (txt "  - " ++ e) :: prints). split; [|exact H].
    cbn [print_errors]. unfold bind at 1. unfold print at 1. cbn [fst snd].
    rewrite E. cbn [fst snd]. now rewrite <- app_assoc.
Qed.

(** With an error reported, the run ends there with status 1. *)
Lemma main_validation_errors
      (main_name figure_path_arg latexpand_path_arg : text)
      (w : W) (log : list event) (error : text) (errors : list text) :
  validate_inputs sys main_name (Path figure_path_arg) (Path latexpand_path_arg) w
  = Done (error :: errors) ->
  exists prints,
    main sys main_name figure_path_arg latexpand_path_arg (w, log)
    = (Done 1, (w, log ++ prints))
    /\ forallb is_print prints = true.
Proof.
  intros H. unfold main.
  unfold bind at 1. unfold banner. cbv [bind print fst snd ret query_exn].
  rewrite H. cbv beta iota.
  match goal with
  | |- context [print_errors ?l ?st] =>
      destruct (print_errors_prints l st) as [prints [Ep Hp]]
  end.
  rewrite Ep. cbn [fst snd]. eexists. split.
  - rewrite <- !app_assoc. reflexivity.
  - rewrite !forallb_app, Hp. reflexivity.
Qed.

(** An exception of a check leaves the script: nothing catches it. *)
Lemma main_validation_raises
      (main_name figure_path_arg latexpand_path_arg : text)
      (w : W) (log : list event) (e : text) :
  validate_inputs sys main_name (Path figure_path_arg) (Path latexpand_path_arg) w
  = Raised e ->
  exists prints,
    main sys main_name figure_path_arg latexpand_path_arg (w, log)
    = (Raised e, (w, log ++ prints))
    /\ forallb is_print prints = true.
Proof.
  intros H. unfold main.
  unfold bind at 1. unfold banner. cbv [bind print fst snd ret query_exn].
  rewrite H. eexists. split.
  - rewrite <- !app_assoc. reflexivity.
  - reflexivity.
Qed.

End ValidatorClaims.

(** C6 (code at the failing input): the main document [paper.text.tex], its
    auxiliary file [paper.text.aux], the figure directory and the expander
    are all there and the expander is a file, so every precondition holds;
    the validator looks for [paper.auxt.aux] instead, reports that the
    auxiliary file does not exist, and the run ends with status 1, the
    world unchanged. *)
Theorem validate_inputs_dotted_document :
  path_exists SimpleFs.simple_os (Path (txt "paper.text.tex"))
              SimpleFs.dotted_project = Done true
  /\ path_exists SimpleFs.simple_os (Path (txt "paper.text" ++ txt ".aux"))
                 SimpleFs.dotted_project = Done true
  /\ path_exists SimpleFs.simple_os (Path (txt "../Figures"))
                 SimpleFs.dotted_project = Done true
  /\ path_exists SimpleFs.simple_os (Path (txt "../latexpand"))
                 SimpleFs.dotted_project = Done true
  /\ path_is_dir SimpleFs.simple_os (Path (txt "../latexpand"))
                 SimpleFs.dotted_project = Done false
  /\ validate_inputs SimpleFs.simple_os (txt "paper.text.tex")
                     (Path (txt "../Figures")) (Path (txt "../latexpand"))
                     SimpleFs.dotted_project
     = Done [txt "Auxiliary file 'paper.auxt.aux' does not exist. Please compile your LaTeX document first."]
  /\ fst dotted_run = Done 1
  /\ fst (snd dotted_run) = SimpleFs.dotted_project
  /\ forallb is_print (snd (snd dotted_run)) = true.
Proof. repeat split. Qed.

(** ** The expansion stage *)

Section ExpansionClaims.
Variable W : Type.
Variable sys : os W.

Lemma later_stages_skipped (figure_path : path) (st : state W) :
  later_stages sys false figure_path st = (Done false, st).
Proof. reflexivity. Qed.

Lemma final_report_failure (st : state W) :
  exists prints,
    final_report false st = (Done 1, (fst st, snd st ++ prints))
    /\ forallb is_print prints = true.
Proof.
  unfold final_report. cbv [bind print fst snd ret]. eexists. split.
  - rewrite <- !app_assoc. reflexivity.
  - reflexivity.
Qed.

Lemma expand_failure (main_name : text) (latexpand_path : path) (st : state W) :
  expansion_failed sys main_name latexpand_path (fst st) = true ->
  exists prints,
    expand sys main_name latexpand_path st
    = (Done false,
       (snd (os_system sys (latexpand_command main_name latexpand_path) (fst st)),
        snd st ++ Print (txt "Running: " ++ txt "LaTeX expansion")
          :: System (latexpand_command main_name latexpand_path) :: prints))
    /\ forallb is_print prints = true.
Proof.
  unfold expansion_failed, expand, run_command_with_check.
  cbv [bind print fst snd ret query_exn try call].
  destruct st as [w log].
  destruct (os_system sys (latexpand_command main_name latexpand_path) w)
    as [[status|e] w']; [|discriminate].
  destruct (Z.eqb status 0); cbn [negb orb].
  - destruct (path_exists sys tmp_tex w') as [[|]|e]; cbn [negb].
    + destruct (stat_size sys tmp_tex w') as [size|e]; [|discriminate].
      intros ->. eexists. split; [rewrite <- !app_assoc; reflexivity | reflexivity].
    + intros _. eexists. split; [rewrite <- !app_assoc; reflexivity | reflexivity].
    + discriminate.
  - intros _. eexists. split; [rewrite <- !app_assoc; reflexivity | reflexivity].
Qed.

(** C7: once the expansion tool has been called, a status other than zero,
    or a status of zero with [tmp.tex] missing or of size zero, makes the run
    a failure: it ends with status 1, and after the call of the tool it only
    prints, so that no later stage reads, copies, moves or writes
    anything. *)
Theorem expansion_failure_is_fatal
        (main_name figure_path_arg latexpand_path_arg : text)
        (w : W) (log : list event) (st : state W) :
  validate_inputs sys main_name (Path figure_path_arg) (Path latexpand_path_arg) w
  = Done [] ->
  before_expansion sys main_name (Path figure_path_arg) (Path latexpand_path_arg)
                   (w, log) = (Done tt, st) ->
  expansion_failed sys main_name (Path latexpand_path_arg) (fst st) = true ->
  exists prints,
    main sys main_name figure_path_arg latexpand_path_arg (w, log)
    = (Done 1,
       (snd (os_system sys (latexpand_command main_name (Path latexpand_path_arg))
                       (fst st)),
        snd st ++ Print (txt "Running: " ++ txt "LaTeX expansion")
          :: System (latexpand_command main_name (Path latexpand_path_arg))
          :: prints))
    /\ forallb is_print prints = true.
Proof.
  intros Hv Hb Hf.
  destruct (expand_failure main_name (Path latexpand_path_arg) st Hf)
    as [prints1 [E1 H1]].
  unfold main. unfold before_expansion in Hb.
  unfold bind at 1. unfold bind at 1 in Hb. unfold banner in *.
  cbv [bind print fst snd ret query_exn] in Hb.
  cbv [bind print fst snd ret query_exn]. rewrite Hv. cbv beta iota.
  unfold try, convert. unfold bind at 1.
  destruct (prepare sys main_name _) as [[[]|e] st'] eqn:Ep; [|discriminate].
  injection Hb as ->.
  unfold bind at 1. rewrite E1, later_stages_skipped.
  match goal with
  | |- context [final_report false ?s] =>
      destruct (final_report_failure s) as [prints2 [E2 H2]]
  end.
  rewrite E2. cbn [fst snd]. exists (prints1 ++ prints2). split.
  - now rewrite <- app_assoc.
  - now rewrite forallb_app, H1, H2.
Qed.

End ExpansionClaims.

Lemma expansion_failure_is_fatal_witness :
  exists prints,
    main SimpleFs.simple_os (txt "Main.tex") (txt "../Figures") (txt "../latexpand")
         (SimpleFs.silent_expander, [])
    = (Done 1,
       (snd (os_system SimpleFs.simple_os
               (latexpand_command (txt "Main.tex") (Path (txt "../latexpand")))
               (fst before_silent_expansion)),
        snd before_silent_expansion
          ++ Print (txt "Running: " ++ txt "LaTeX expansion")
          :: System (latexpand_command (txt "Main.tex") (Path (txt "../latexpand")))
          :: prints))
    /\ forallb is_print prints = true.
Proof.
  exact (expansion_failure_is_fatal _ SimpleFs.simple_os (txt "Main.tex")
           (txt "../Figures") (txt "../latexpand") SimpleFs.silent_expander []
           before_silent_expansion eq_refl eq_refl eq_refl).
Defined.

(** ** Paths of plain names *)

Section PathFacts.

Lemma split_on_without (sep : char) (n : text) :
  forallb (fun c => negb (N.eqb c sep)) n = true -> split_on sep n = [n].
Proof.
  induction n as [|c n IH]; [reflexivity|].
  simpl. intros H. apply andb_prop in H as [Hc Hn].
  apply negb_true_iff in Hc. now rewrite Hc, (IH Hn).
Qed.

Lemma rfind_without (c : char) (n : text) :
  forallb (fun x => negb (N.eqb x c)) n = true -> rfind c n = None.
Proof.
  induction n as [|x n IH]; [reflexivity|].
  simpl. intros H. apply andb_prop in H as [Hx Hn].
  apply negb_true_iff in Hx. now rewrite (IH Hn), Hx.
Qed.

Lemma plain_name_chars (n : text) :
  plain_name n = true ->
  n <> []
  /\ forallb (fun c => negb (N.eqb c slash)) n = true
  /\ forallb (fun c => negb (N.eqb c dot)) n = true.
Proof.
  unfold plain_name. intros H. apply andb_prop in H as [Hn Hc]. split.
  - intros ->. discriminate.
  - clear Hn. induction n as [|c n IH]; [split; reflexivity|].
    simpl in Hc. apply andb_prop in Hc as [Hc Hr].
    apply andb_prop in Hc as [H1 H2]. destruct (IH Hr) as [I1 I2].
    simpl. now rewrite H1, H2, I1, I2.
Qed.

(** A plain name is a path of one component. *)
Lemma Path_plain (n : text) : plain_name n = true -> Path n = MkPath [] [n].
Proof.
  intros H. destruct (plain_name_chars n H) as [Hne [Hs Hd]].
  unfold Path. rewrite (split_on_without slash n Hs). f_equal.
  - destruct n as [|a [|b [|c n]]]; [congruence| | |];
      simpl in Hs; apply andb_prop in Hs as [Ha _];
      apply negb_true_iff in Ha; now rewrite Ha.
  - cbn [filter]. unfold is_component.
    destruct (text_eqb n []) eqn:E1; [apply text_eqb_eq in E1; congruence|].
    destruct (text_eqb n [dot]) eqn:E2; [|reflexivity].
    apply text_eqb_eq in E2. subst n. discriminate.
Qed.

Lemma joinpath_plain (p : path) (n : text) :
  plain_name n = true -> joinpath p n = child p n.
Proof. intros H. unfold joinpath. now rewrite (Path_plain n H). Qed.

Lemma name_child (p : path) (n : text) : name (child p n) = n.
Proof. unfold name, child. cbn [parts]. apply last_last. Qed.

(** With a plain name, [with_suffix] appends the suffix. *)
Lemma with_suffix_plain (p : path) (n sfx : text) :
  plain_name n = true -> valid_suffix sfx = true ->
  with_suffix (child p n) sfx = Some (child p (n ++ sfx)).
Proof.
  intros H Hv. destruct (plain_name_chars n H) as [Hne [_ Hd]].
  unfold with_suffix, suffix, suffix_index. rewrite Hv, name_child.
  rewrite (rfind_without dot n Hd).
  destruct n as [|c n]; [congruence|].
  unfold child. cbn [root parts]. now rewrite removelast_last.
Qed.

Lemma digits_fuel_plain (fuel : nat) (n : N) (acc : text) :
  forallb (fun c => negb (N.eqb c slash) && negb (N.eqb c dot)) acc = true ->
  forallb (fun c => negb (N.eqb c slash) && negb (N.eqb c dot))
          (digits_fuel fuel n acc) = true.
Proof.
  revert n acc. induction fuel as [|fuel IH]; intros n acc H; [exact H|].
  cbn [digits_fuel].
  assert (Hd : forallb (fun c => negb (N.eqb c slash) && negb (N.eqb c dot))
                       ((48 + n mod 10)%N :: acc) = true).
  { cbn [forallb]. rewrite H.
    assert (Hm : (n mod 10 < 10)%N) by (apply N.mod_upper_bound; discriminate).
    revert Hm. generalize (n mod 10)%N as d. intros d Hm.
    assert (E1 : N.eqb (48 + d) slash = false)
      by (apply N.eqb_neq; unfold slash; lia).
    assert (E2 : N.eqb (48 + d) dot = false)
      by (apply N.eqb_neq; unfold dot; lia).
    now rewrite E1, E2. }
  destruct (n <? 10)%N; [exact Hd | now apply IH].
Qed.

(** [Fig<n>] is a plain name. *)
Lemma figure_name_plain (n : nat) : plain_name (txt "Fig" ++ decimal n) = true.
Proof.
  unfold plain_name. apply andb_true_intro. split; [reflexivity|].
  rewrite forallb_app. apply andb_true_intro. split; [reflexivity|].
  now apply digits_fuel_plain.
Qed.

Lemma extensions_valid (ext : text) :
  In ext extensions -> valid_suffix ext = true.
Proof.
  intros [<-|[<-|[<-|[<-|[]]]]]; reflexivity.
Qed.

(** The target of the copy of the reference at index [i]: the file
    [Fig<i+1><ext>] of the target directory. *)
Lemma target_file (target : path) (i : nat) (ext : text) :
  In ext extensions ->
  with_suffix (joinpath target (txt "Fig" ++ decimal (i + 1))) ext
  = Some (child target (txt "Fig" ++ decimal (i + 1) ++ ext)).
Proof.
  intros H. rewrite (joinpath_plain _ _ (figure_name_plain (i + 1))).
  rewrite (with_suffix_plain _ _ _ (figure_name_plain (i + 1)) (extensions_valid _ H)).
  now rewrite <- app_assoc.
Qed.

End PathFacts.

(** ** The auxiliary file *)

Section AuxFileFacts.

Lemma strip_prefix_within (p s x : text) (r : text) :
  strip_prefix p (s ++ x) = Some r -> length p <= length s ->
  exists r', strip_prefix p s = Some r'.
Proof.
  revert s. induction p as [|a p IH]; intros s; [simpl; eauto|].
  destruct s as [|b s]; [simpl; lia|]. simpl.
  destruct (N.eqb a b); [|discriminate].
  intros H Hl. apply (IH s H). lia.
Qed.

Lemma occurs_cons (old : text) (c : char) (t : text) :
  occurs old (c :: t) = false ->
  strip_prefix old (c :: t) = None /\ occurs old t = false.
Proof.
  cbn [occurs]. destruct (strip_prefix old (c :: t)); [discriminate | auto].
Qed.

Lemma aux_file_replace_from (main_name : text) :
  aux_file main_name = replace_from (txt ".tex") (txt ".aux") main_name 0.
Proof. reflexivity. Qed.

(** X15: when [.tex] occurs only at the end of the name, the code replaces
    the extension. *)
Lemma aux_file_single_occurrence (base : text) :
  occurs (txt ".tex") (base ++ txt ".te") = false ->
  aux_file (base ++ txt ".tex") = base ++ txt ".aux".
Proof.
  rewrite aux_file_replace_from.
  induction base as [|c base IH]; [reflexivity|].
  change ((c :: base) ++ ?x) with (c :: (base ++ x)). intros H.
  apply occurs_cons in H as [Hc Hr]. cbn [replace_from].
  destruct (strip_prefix (txt ".tex") (c :: base ++ txt ".tex")) as [r|] eqn:E.
  - assert (Ex : c :: base ++ txt ".tex" = (c :: base ++ txt ".te") ++ [120%N])
      by (now rewrite <- app_comm_cons, <- app_assoc).
    rewrite Ex in E. apply strip_prefix_within in E as [r' E'].
    + discriminate (eq_trans (eq_sym Hc) E').
    + simpl. rewrite length_app. simpl. lia.
  - f_equal. now apply IH.
Qed.

End AuxFileFacts.

(** ** The figure copier *)

Section CopierClaims.
Variable W : Type.
Variable sys : os W.

(** The probes of a plain base name: nothing found. *)
Lemma probe_missing (exts : list text) (figure_path target_path : path)
      (base figure_name : text) (w : W) (log : list event) :
  plain_name base = true ->
  (forall ext, In ext exts -> valid_suffix ext = true) ->
  no_candidate sys exts figure_path base w = true ->
  probe sys exts (child figure_path base) target_path figure_name (w, log)
  = (Done Missing,
     (w, log ++ [Print (txt "Warning: No matching file found for " ++ figure_name)])).
Proof.
  intros Hb. induction exts as [|ext exts IH]; intros Hv; [reflexivity|].
  cbn [no_candidate forallb]. intros H. apply andb_prop in H as [He Hr].
  cbn [probe]. rewrite (with_suffix_plain _ _ _ Hb (Hv ext (or_introl eq_refl))).
  cbv [bind of_option ret raise query_exn fst snd].
  destruct (path_exists sys (child figure_path (base ++ ext)) w) as [[|]|e];
    [discriminate| |discriminate].
  apply IH; [|exact Hr]. intros x Hx. apply Hv. now right.
Qed.

(** The probes of a plain base name: the first file found is copied. *)
Lemma probe_first_candidate (exts : list text) (figure_path target_path : path)
      (base figure_name ext : text) (dst : path) (w : W) (log : list event) :
  plain_name base = true ->
  (forall ext, In ext exts -> valid_suffix ext = true) ->
  first_candidate sys exts figure_path base w = Some ext ->
  with_suffix target_path ext = Some dst ->
  probe sys exts (child figure_path base) target_path figure_name (w, log)
  = match shutil_copy sys (child figure_path (base ++ ext)) dst w with
    | (Done _, w') =>
        (Done Copied, (w', log ++ [Copy (child figure_path (base ++ ext)) dst]))
    | (Raised e, w') =>
        (Done CopyFailed,
         (w', (log ++ [Copy (child figure_path (base ++ ext)) dst])
                ++ [copy_error_line (child figure_path (base ++ ext)) e]))
    end.
Proof.
  intros Hb. induction exts as [|x exts IH]; intros Hv; [discriminate|].
  cbn [first_candidate probe].
  rewrite (with_suffix_plain _ _ _ Hb (Hv x (or_introl eq_refl))).
  cbv [bind of_option ret raise query_exn fst snd].
  destruct (path_exists sys (child figure_path (base ++ x)) w) as [[|]|e];
    [| |discriminate].
  - intros [= ->] Hd. rewrite Hd. cbv [try call print fst snd].
    now destruct (shutil_copy sys _ dst w) as [[[]|e] w'].
  - apply IH. intros y Hy. apply Hv. now right.
Qed.

(** The probes of a plain base name: an [exists()] that raises. *)
Lemma probe_raising (exts : list text) (figure_path target_path : path)
      (base figure_name e : text) (w : W) (log : list event) :
  plain_name base = true ->
  (forall ext, In ext exts -> valid_suffix ext = true) ->
  raising_candidate sys exts figure_path base w = Some e ->
  probe sys exts (child figure_path base) target_path figure_name (w, log)
  = (Raised e, (w, log)).
Proof.
  intros Hb. induction exts as [|x exts IH]; intros Hv; [discriminate|].
  cbn [raising_candidate probe].
  rewrite (with_suffix_plain _ _ _ Hb (Hv x (or_introl eq_refl))).
  cbv [bind of_option ret raise query_exn fst snd].
  destruct (path_exists sys (child figure_path (base ++ x)) w) as [[|]|e'];
    [discriminate| |].
  - apply IH. intros y Hy. apply Hv. now right.
  - now intros [= ->].
Qed.

(** How a probe can end, and what it has logged by then. *)
Lemma probe_outcome (exts : list text) (source_path target_path : path)
      (figure_name : text) (w : W) (log : list event) :
  match probe sys exts source_path target_path figure_name (w, log) with
  | (Done Copied, (_, log')) => exists src dst, log' = log ++ [Copy src dst]
  | (Done Missing, (w', log')) =>
      w' = w
      /\ log' = log ++ [Print (txt "Warning: No matching file found for "
                                ++ figure_name)]
  | (Done CopyFailed, (_, log')) =>
      exists src dst e, log' = log ++ [Copy src dst; copy_error_line src e]
  | (Raised e, st') =>
      st' = (w, log)
      /\ ((exists p, path_exists sys p w = Raised e)
          \/ exists ext, In ext exts
                         /\ (with_suffix source_path ext = None
                             \/ with_suffix target_path ext = None))
  end.
Proof.
  induction exts as [|ext exts IH]; [simpl; auto|].
  cbn [probe]. cbv [bind of_option ret raise query_exn fst snd].
  destruct (with_suffix source_path ext) as [f|] eqn:Ef.
  - destruct (path_exists sys f w) as [[|]|e] eqn:Ee.
    + destruct (with_suffix target_path ext) as [d|] eqn:Ed.
      * cbv [try call print fst snd].
        destruct (shutil_copy sys f d w) as [[[]|e] w'].
        -- now exists f, d.
        -- exists f, d, e. now rewrite <- app_assoc.
      * split; [reflexivity|]. right. exists ext. split; [now left | now right].
    + destruct (probe sys exts source_path target_path figure_name (w, log))
        as [[[]|e] [w' log']]; try exact IH.
      destruct IH as [E [H|[x [Hx H]]]]; (split; [exact E|]);
        [now left | right; exists x; split; [now right | exact H]].
    + split; [reflexivity|]. left. now exists f.
  - split; [reflexivity|]. right. exists ext. split; [now left | now left].
Qed.

(** The loop returns [False] only right after a copy has raised. *)
Lemma copy_loop_false (figures : list text) (figure_path target : path) :
  forall (i copied_count total : nat) (w : W) (log : list event) (st : state W),
    copy_loop sys i figures figure_path target copied_count total (w, log)
    = (Done false, st) ->
    exists src dst e l, snd st = l ++ [Copy src dst; copy_error_line src e].
Proof.
  induction figures as [|figure figures IH]; intros i c total w log st.
  - cbn [copy_loop]. cbv [bind print ret fst snd]. discriminate.
  - cbn [copy_loop]. unfold bind at 1.
    pose proof (probe_outcome extensions
                  (joinpath figure_path (stem (Path figure)))
                  (joinpath target (txt "Fig" ++ decimal (i + 1)))
                  (stem (Path figure)) w log) as H.
    destruct (probe sys extensions _ _ _ (w, log)) as [[[]|e] [w' log']].
    + apply IH.
    + apply IH.
    + destruct H as [src [dst [e ->]]]. unfold ret. intros [= <-].
      now exists src, dst, e, log.
    + discriminate.
Qed.

(** X12: for a reference whose base name is plain, the file copied is the
    first of [base.pdf], [base.png], [base.jpg], [base.jpeg] that exists in
    the figure directory, its target is [Fig<i+1>] with the same extension,
    and the loop goes on with one more copy counted. *)
Lemma copy_loop_plain_reference
      (i : nat) (figure : text) (figures : list text) (figure_path target : path)
      (copied_count total : nat) (w w' : W) (log : list event) (ext : text) :
  plain_name (stem (Path figure)) = true ->
  first_candidate sys extensions figure_path (stem (Path figure)) w = Some ext ->
  shutil_copy sys (child figure_path (stem (Path figure) ++ ext))
              (child target (txt "Fig" ++ decimal (i + 1) ++ ext)) w
  = (Done tt, w') ->
  copy_loop sys i (figure :: figures) figure_path target copied_count total (w, log)
  = copy_loop sys (S i) figures figure_path target (copied_count + 1) total
      (w', log ++ [Copy (child figure_path (stem (Path figure) ++ ext))
                        (child target (txt "Fig" ++ decimal (i + 1) ++ ext))]).
Proof.
  intros Hb Hf Hc. cbn [copy_loop]. unfold bind at 1.
  assert (Hin : In ext extensions).
  { revert Hf. generalize extensions as exts.
    induction exts as [|x exts IH]; [discriminate|]. cbn [first_candidate].
    destruct (path_exists sys _ w) as [[|]|e]; [| |discriminate].
    - intros [= ->]. now left.
    - intros H. right. auto. }
  rewrite (joinpath_plain _ _ Hb).
  rewrite (probe_first_candidate _ _ _ _ _ ext
             (child target (txt "Fig" ++ decimal (i + 1) ++ ext)) _ _
             Hb extensions_valid Hf (target_file _ _ _ Hin)).
  now rewrite Hc.
Qed.

End CopierClaims.

(** C5 (code at the failing input): the reference [plot.v2.png] has the base
    name [plot.v2], and none of [figs/plot.v2.pdf], [figs/plot.v2.png],
    [figs/plot.v2.jpg], [figs/plot.v2.jpeg] exists; the copier gives no
    warning: it copies [figs/plot.png], a file of another base name, to
    [Fig1.png] and counts one figure copied. *)
Theorem copy_figures_dotted_reference_not_missing :
  stem (Path (txt "plot.v2.png")) = txt "plot.v2"
  /\ map (fun ext => path_exists SimpleFs.simple_os
                       (Path (txt "figs/plot.v2" ++ ext)) SimpleFs.other_figure)
         extensions
     = [Done false; Done false; Done false; Done false]
  /\ fst other_copy = Done true
  /\ snd (snd other_copy)
     = [Copy (Path (txt "figs/plot.png")) (Path (txt "transformed/Fig1.png"));
        Print (txt "Successfully copied 1 out of 1 figures")]
  /\ SimpleFs.lookup (Path (txt "transformed/Fig1.png"))
                     (SimpleFs.files (fst (snd other_copy)))
     = Some (txt "PNG").
Proof. repeat split. Qed.

(** C2 (code at the failing input): the reference [plot.v2.png] has the base
    name [plot.v2], and [figs/plot.v2.png] is the one file with that base
    name and one of the four extensions; the copier probes [figs/plot.pdf],
    [figs/plot.png], [figs/plot.jpg] and [figs/plot.jpeg] instead, finds
    none and copies nothing. *)
Theorem copy_figures_dotted_base_name :
  stem (Path (txt "plot.v2.png")) = txt "plot.v2"
  /\ map (fun ext => path_exists SimpleFs.simple_os
                       (Path (txt "figs/plot.v2" ++ ext)) SimpleFs.dotted_figure)
         extensions
     = [Done false; Done true; Done false; Done false]
  /\ map (with_suffix (joinpath (Path (txt "figs")) (txt "plot.v2"))) extensions
     = [Some (Path (txt "figs/plot.pdf")); Some (Path (txt "figs/plot.png"));
        Some (Path (txt "figs/plot.jpg")); Some (Path (txt "figs/plot.jpeg"))]
  /\ copy_figures SimpleFs.simple_os [txt "plot.v2.png"] (Path (txt "figs"))
                  target_dir (SimpleFs.dotted_figure, [])
     = (Done true,
        (SimpleFs.dotted_figure,
         [warning_line (txt "plot.v2.png");
          Print (txt "Successfully copied 0 out of 1 figures")])).
Proof. repeat split. Qed.

(** C8 (code at the failing input): every occurrence of [.tex] in the path
    is replaced, not only the extension. *)
Theorem aux_file_replaces_every_occurrence :
  aux_file (txt "paper.text.tex") = txt "paper.auxt.aux"
  /\ aux_file (txt "paper.text.tex") <> txt "paper.text" ++ txt ".aux".
Proof. split; [reflexivity | vm_compute; discriminate]. Qed.

(** * Further properties *)

(** ** The extractor on whole documents *)

Section ExtractorDocuments.

Lemma split_on_nonempty (sep : char) (s : text) : split_on sep s <> [].
Proof.
  destruct s as [|c s]; simpl; [discriminate|].
  destruct (N.eqb c sep); [discriminate|].
  destruct (split_on sep s); discriminate.
Qed.

Lemma lines_app (a b : text) : lines (a ++ nl :: b) = lines a ++ lines b.
Proof.
  unfold lines. induction a as [|c a IH].
  - reflexivity.
  - change ((c :: a) ++ nl :: b) with (c :: (a ++ nl :: b)). cbn [split_on].
    rewrite IH. destruct (N.eqb c nl); [reflexivity|].
    pose proof (split_on_nonempty nl a) as H.
    destruct (split_on nl a) as [|l ls]; [congruence | reflexivity].
Qed.

(** X1: the result for two texts joined by a newline is the result for the
    first followed by the result for the second. *)
Theorem extract_figure_names_app (a b : text) :
  extract_figure_names (a ++ nl :: b)
  = extract_figure_names a ++ extract_figure_names b.
Proof.
  rewrite !extract_by_line, lines_app. apply flat_map_app.
Qed.

Lemma lines_in (s l : text) :
  In l (lines s) -> exists x y, s = x ++ l ++ y.
Proof.
  remember (length s) as n eqn:Hn. revert s Hn.
  induction n as [n IH] using lt_wf_ind. intros s Hn.
  destruct (lines_split s) as [l0 [_ [[-> ->]|[R [-> ->]]]]].
  - intros [<-|[]]. exists [], []. now rewrite app_nil_r.
  - intros [<-|H].
    + exists [], (nl :: R). reflexivity.
    + destruct (IH (length R)) with (s := R) as [x [y ->]]; auto.
      * subst n. rewrite length_app. simpl. lia.
      * exists (l0 ++ nl :: x), y. now rewrite <- app_assoc.
Qed.

Lemma last_directive_at (l p : text) :
  last_directive l = Some p ->
  exists a t, l = a ++ t /\ directive_at t = Some p.
Proof.
  induction l as [|c l IH]; cbn [last_directive].
  - intros H. now exists [], [].
  - destruct (last_directive l) as [q|]; cbn [orelse].
    + intros [= ->]. destruct (IH eq_refl) as [a [t [-> H]]].
      now exists (c :: a), t.
    + intros H. now exists [], (c :: l).
Qed.

End ExtractorDocuments.

(** ** What a directive looks like *)

Section DirectiveSoundness.

(** The lazy star stops at the first place where the rest of the pattern
    matches. *)
Lemma starL_first (q : char -> bool) (k : mstate -> option mstate)
      (g : option text) (s : text) (pv : option char) (r : mstate) :
  starL q pv s g k = Some r ->
  exists a b pv',
    s = a ++ b /\ forallb q a = true /\ k (MState pv' b g) = Some r
    /\ forall a1 x a2, a = a1 ++ x :: a2 ->
         exists pv'', k (MState pv'' (x :: a2 ++ b) g) = None.
Proof.
  revert pv. induction s as [|c s IH]; intros pv; cbn [starL].
  - destruct (k (MState pv [] g)) as [r'|] eqn:E; cbn [orelse]; [|discriminate].
    intros [= ->]. exists [], [], pv. repeat split; auto.
    intros [|? ?] ? ? H; discriminate H.
  - destruct (k (MState pv (c :: s) g)) as [r'|] eqn:E; cbn [orelse].
    + intros [= ->]. exists [], (c :: s), pv. repeat split; auto.
      intros [|? ?] ? ? H; discriminate H.
    + destruct (q c) eqn:Hc; [|discriminate].
      intros H. destruct (IH _ H) as [a [b [pv' [-> [Ha [Hk Hf]]]]]].
      exists (c :: a), b, pv'. repeat split; auto.
      * simpl. now rewrite Hc, Ha.
      * intros [|y a1] x a2 Heq; injection Heq as -> ->.
        -- now exists pv.
        -- now apply (Hf a1 x a2).
Qed.

Lemma forallb_from_mid (q : char -> bool) (a : text) :
  (forall a1 x a2, a = a1 ++ x :: a2 -> q x = true) -> forallb q a = true.
Proof.
  induction a as [|c a IH]; intros H; [reflexivity|].
  simpl. rewrite (H [] c a eq_refl). apply IH.
  intros a1 x a2 ->. now apply (H (c :: a1) x a2).
Qed.

(** The braced argument ends at the first closing brace. *)
Lemma braced_argument_sound (s : text) (pv : option char) (g : option text)
      (r : mstate) :
  m (Seq (Chr lbrace) (Seq (Grp (StarL any_but_nl)) (Chr rbrace)))
    (MState pv s g) Some = Some r ->
  exists p t,
    s = lbrace :: p ++ rbrace :: t
    /\ forallb any_but_nl p = true /\ forallb not_rbrace p = true
    /\ r = MState (Some rbrace) t (Some p).
Proof.
  rewrite m_seq. destruct s as [|c s]; [discriminate|].
  rewrite m_chr_cons. destruct (N.eqb_spec c lbrace) as [->|_]; [|discriminate].
  rewrite m_seq, m_grp, m_starL. cbn [prev rest grp]. intros H.
  apply starL_first in H as [p [b [pv' [-> [Hp [Hk Hf]]]]]].
  cbn [prev rest grp] in Hk. destruct b as [|x t]; [discriminate|].
  rewrite m_chr_cons in Hk.
  destruct (N.eqb_spec x rbrace) as [->|_]; [|discriminate].
  rewrite firstn_of_app in Hk. injection Hk as <-.
  exists p, t. repeat split; auto.
  apply forallb_from_mid. intros a1 x a2 E.
  destruct (Hf a1 x a2 E) as [pv'' Hn]. cbn [prev rest grp] in Hn.
  rewrite m_chr_cons in Hn. unfold not_rbrace.
  destruct (N.eqb x rbrace); [discriminate | reflexivity].
Qed.

(** Where a directive is found, the text reads [\includegraphics], an
    optional bracketed part, and the captured argument in braces. *)
Lemma directive_at_sound (t p : text) :
  directive_at t = Some p ->
  exists o r,
    t = directive_text o p ++ r
    /\ forallb any_but_nl p = true /\ forallb not_rbrace p = true.
Proof.
  unfold directive_at, re_match, directive_re.
  rewrite m_seq, m_lit. cbn [rest prev grp].
  destruct (strip_prefix (txt "\includegraphics") t) as [t1|] eqn:E1;
    [|discriminate].
  apply strip_prefix_Some in E1. subst t.
  rewrite m_seq, m_opt.
  match goal with
  | |- option_map _ (orelse ?x ?y) = _ -> _ =>
      destruct x as [r|] eqn:Ex; cbn [orelse]
  end.
  - intros [= <-]. rewrite m_seq in Ex.
    destruct t1 as [|c t1]; [discriminate|]. rewrite m_chr_cons in Ex.
    destruct (N.eqb_spec c lbracket) as [->|_]; [|discriminate].
    rewrite m_seq, m_starL in Ex. cbn [prev rest grp] in Ex.
    apply starL_first in Ex as [o [b [pv' [-> [_ [Hk _]]]]]].
    destruct b as [|x b]; [discriminate|]. rewrite m_chr_cons in Hk.
    destruct (N.eqb_spec x rbracket) as [->|_]; [|discriminate].
    apply braced_argument_sound in Hk as [p [u [-> [H1 [H2 ->]]]]].
    exists (Some o), u. repeat split; auto.
    unfold directive_text, includegraphics, options_text.
    now rewrite <- !app_assoc, <- !app_comm_cons, <- !app_assoc.
  - destruct (m _ _ Some) as [r|] eqn:Ek; [|discriminate].
    intros [= <-].
    apply braced_argument_sound in Ek as [p [u [-> [H1 [H2 ->]]]]].
    exists None, u. repeat split; auto.
    unfold directive_text, includegraphics, options_text.
    now rewrite <- !app_assoc, <- !app_comm_cons, <- !app_assoc.
Qed.

Lemma extract_figure_names_sound_helper (s p : text) :
  In p (extract_figure_names s) ->
  exists a o b, s = a ++ directive_text o p ++ b.
Proof.
  rewrite extract_by_line. intros H. apply in_flat_map in H as [l [Hl Hp]].
  unfold line_figure in Hp. destruct (is_comment l); [destruct Hp|].
  destruct (last_directive l) as [q|] eqn:E; [|destruct Hp].
  destruct Hp as [->|[]].
  apply last_directive_at in E as [a [t [-> E]]].
  apply directive_at_sound in E as [o [r [-> _]]].
  apply lines_in in Hl as [x [y ->]].
  exists (x ++ a), o, (r ++ y). now rewrite <- !app_assoc.
Qed.

(** X2: every entry the extractor returns stands in the document as the
    braced argument of an [\includegraphics] directive, after an optional
    bracketed part, and holds neither a newline nor a closing brace. *)
Theorem extract_figure_names_sound (s p : text) :
  In p (extract_figure_names s) ->
  exists a o b,
    s = a ++ directive_text o p ++ b
    /\ forallb any_but_nl p = true /\ forallb not_rbrace p = true.
Proof.
  rewrite extract_by_line. intros H. apply in_flat_map in H as [l [Hl Hp]].
  unfold line_figure in Hp. destruct (is_comment l); [destruct Hp|].
  destruct (last_directive l) as [q|] eqn:E; [|destruct Hp].
  destruct Hp as [->|[]].
  apply last_directive_at in E as [a [t [-> E]]].
  apply directive_at_sound in E as [o [r [-> [H1 H2]]]].
  apply lines_in in Hl as [x [y ->]].
  exists (x ++ a), o, (r ++ y). split; [|auto].
  now rewrite <- !app_assoc.
Qed.

Lemma occurs_here (old t : text) : occurs old (old ++ t) = true.
Proof.
  destruct (old ++ t) eqn:E; cbn [occurs]; rewrite <- E;
    now rewrite strip_prefix_app.
Qed.

Lemma occurs_app (old a t : text) :
  occurs old t = true -> occurs old (a ++ t) = true.
Proof.
  intros H. induction a as [|c a IH]; [exact H|].
  change ((c :: a) ++ t) with (c :: (a ++ t)). cbn [occurs].
  rewrite IH. now destruct (strip_prefix old (c :: a ++ t)).
Qed.

(** X3: a text in which [\includegraphics] does not occur gives no
    entry. *)
Theorem extract_figure_names_none (s : text) :
  occurs includegraphics s = false -> extract_figure_names s = [].
Proof.
  intros H. destruct (extract_figure_names s) as [|p ps] eqn:E; [reflexivity|].
  destruct (extract_figure_names_sound_helper s p) as [a [o [b ->]]];
    [rewrite E; now left|].
  unfold directive_text in H. rewrite <- app_assoc in H.
  rewrite (occurs_app _ a _ (occurs_here includegraphics _)) in H.
  discriminate.
Qed.

End DirectiveSoundness.

(** ** A line with one directive *)

Section SingleDirective.

Lemma directive_at_backslash (c : char) (t p : text) :
  directive_at (c :: t) = Some p -> c = backslash.
Proof.
  unfold directive_at, re_match, directive_re.
  rewrite m_seq, m_lit. cbn [rest prev grp].
  change (txt "\includegraphics") with (backslash :: txt "includegraphics").
  cbn [strip_prefix]. destruct (N.eqb_spec backslash c); [auto | discriminate].
Qed.

Lemma last_directive_no_backslash (t : text) :
  no_backslash t = true -> last_directive t = None.
Proof.
  induction t as [|c t IH]; [reflexivity|].
  unfold no_backslash. cbn [forallb last_directive]. intros H.
  apply andb_prop in H as [Hc Ht]. rewrite (IH Ht). cbn [orelse].
  destruct (directive_at (c :: t)) as [p|] eqn:E; [|reflexivity].
  apply directive_at_backslash in E. subst c. discriminate.
Qed.

Lemma last_directive_prefix (a t p : text) :
  last_directive t = Some p -> last_directive (a ++ t) = Some p.
Proof.
  intros H. induction a as [|c a IH]; [exact H|].
  change ((c :: a) ++ t) with (c :: (a ++ t)). cbn [last_directive].
  now rewrite IH.
Qed.

Lemma forallb_app_l (q : char -> bool) (a b : text) :
  forallb q (a ++ b) = true -> forallb q a = true.
Proof. rewrite forallb_app. intros H. now apply andb_prop in H. Qed.

Lemma forallb_app_r (q : char -> bool) (a b : text) :
  forallb q (a ++ b) = true -> forallb q b = true.
Proof. rewrite forallb_app. intros H. now apply andb_prop in H. Qed.

Lemma directive_text_some (o p post : text) :
  directive_text (Some o) p ++ post
  = txt "\includegraphics" ++ lbracket :: o ++ rbracket :: lbrace :: p
      ++ rbrace :: post.
Proof.
  unfold directive_text, includegraphics, options_text.
  repeat (rewrite <- app_assoc || rewrite <- app_comm_cons). reflexivity.
Qed.

Lemma directive_text_none (p post : text) :
  directive_text None p ++ post
  = txt "\includegraphics" ++ lbrace :: p ++ rbrace :: post.
Proof.
  unfold directive_text, includegraphics, options_text.
  repeat (rewrite <- app_assoc || rewrite <- app_comm_cons). reflexivity.
Qed.

Lemma directive_text_found (o : option text) (p post : text) :
  forallb any_but_nl (directive_text o p ++ post) = true ->
  forallb not_rbrace p = true ->
  match o with Some o' => no_rbracket o' | None => true end = true ->
  directive_at (directive_text o p ++ post) = Some p.
Proof.
  intros Hnl Hp Ho. destruct o as [o|].
  - rewrite directive_text_some in *. apply forallb_app_r in Hnl.
    cbn [forallb] in Hnl. apply andb_prop in Hnl as [_ Hnl].
    pose proof (forallb_app_l _ _ _ Hnl) as Hol.
    apply forallb_app_r in Hnl. cbn [forallb] in Hnl.
    apply andb_prop in Hnl as [_ Hnl]. apply andb_prop in Hnl as [_ Hnl].
    apply forallb_app_l in Hnl.
    now apply (directive_at_options o p post).
  - rewrite directive_text_none in *. apply forallb_app_r in Hnl.
    cbn [forallb] in Hnl. apply andb_prop in Hnl as [_ Hnl].
    apply forallb_app_l in Hnl.
    now apply (directive_at_plain p post).
Qed.

(** X4: on a line that does not begin with [%], a directive is found after
    any text: when nothing after the start of the directive holds a
    backslash, the line gives exactly the argument of the directive. *)
Theorem extract_figure_names_single (pre post p : text) (o : option text) :
  forallb any_but_nl (pre ++ directive_text o p ++ post) = true ->
  is_comment (pre ++ directive_text o p ++ post) = false ->
  forallb not_rbrace p = true ->
  match o with Some o' => no_rbracket o' && no_backslash o' | None => true end = true ->
  no_backslash (p ++ post) = true ->
  extract_figure_names (pre ++ directive_text o p ++ post) = [p].
Proof.
  intros Hnl Hc Hp Ho Hb. rewrite (extract_of_line _ Hnl).
  unfold line_figure. rewrite Hc.
  rewrite (last_directive_prefix pre _ p); [reflexivity|].
  assert (Ho' : match o with Some o' => no_rbracket o' | None => true end = true)
    by (destruct o; [now apply andb_prop in Ho|reflexivity]).
  pose proof (directive_text_found o p post (forallb_app_r _ _ _ Hnl) Hp Ho') as Hd.
  assert (Ht : exists tail, directive_text o p ++ post = backslash :: tail
                            /\ no_backslash tail = true).
  { unfold no_backslash in *. rewrite forallb_app in Hb.
    apply andb_prop in Hb as [Hb1 Hb2]. destruct o as [o|].
    - rewrite directive_text_some.
      change (txt "\includegraphics") with (backslash :: txt "includegraphics").
      eexists. split; [rewrite <- app_comm_cons; reflexivity|].
      apply andb_prop in Ho as [_ Ho]. unfold no_backslash in Ho.
      rewrite forallb_app. cbn [forallb]. rewrite forallb_app. cbn [forallb].
      repeat (apply andb_true_intro; split); try reflexivity; try exact Ho.
      rewrite forallb_app. cbn [forallb]. now rewrite Hb1, Hb2.
    - rewrite directive_text_none.
      change (txt "\includegraphics") with (backslash :: txt "includegraphics").
      eexists. split; [rewrite <- app_comm_cons; reflexivity|].
      rewrite forallb_app. cbn [forallb]. rewrite forallb_app. cbn [forallb].
      now rewrite Hb1, Hb2. }
  destruct Ht as [tail [Et Hbt]]. rewrite Et in *.
  cbn [last_directive]. rewrite (last_directive_no_backslash tail Hbt).
  cbn [orelse]. exact Hd.
Qed.

End SingleDirective.

(** ** Running a command *)

Section CommandRunner.
Variable W : Type.
Variable sys : os W.

Lemma run_command_with_check_spec_helper (command description : text)
      (st : state W) :
  exists b st', run_command_with_check sys command description st = (Done b, st').
Proof.
  unfold run_command_with_check. cbv [bind print try call ret fst snd].
  destruct st as [w log].
  destruct (os_system sys command w) as [[status|e] w'];
    [destruct (Z.eqb status 0)|]; cbn [negb]; eauto.
Qed.


Lemma run_command_with_check_done (command description : text) (st : state W) :
  exists b st', run_command_with_check sys command description st = (Done b, st').
Proof.
  destruct (run_command_with_check_spec_helper command description st)
    as [b [st' E]]. eauto.
Qed.

End CommandRunner.

(** ** The run as a whole *)

Section RunFacts.
Variable W : Type.
Variable sys : os W.

Lemma final_report_done (success : bool) (st : state W) :
  exists st',
    final_report success st = (Done (if success then 0 else 1), st').
Proof.
  unfold final_report. cbv [bind print fst snd ret].
  destruct success; eexists; reflexivity.
Qed.

Lemma main_status (main_name figure_path_arg latexpand_path_arg : text)
      (w : W) (log : list event) :
  (exit_status (fst (main sys main_name figure_path_arg latexpand_path_arg (w, log)))
   = 0
   \/ exit_status (fst (main sys main_name figure_path_arg latexpand_path_arg
                             (w, log))) = 1)
  /\ (exit_status (fst (main sys main_name figure_path_arg latexpand_path_arg
                             (w, log))) = 0 ->
      validate_inputs sys main_name (Path figure_path_arg)
                      (Path latexpand_path_arg) w = Done []).
Proof.
  destruct (validate_inputs sys main_name (Path figure_path_arg)
              (Path latexpand_path_arg) w) as [[|error errors]|e] eqn:Ev.
  - unfold main. unfold bind at 1. unfold banner.
    cbv [bind print fst snd ret query_exn]. rewrite Ev.
    cbv beta iota. unfold try.
    destruct (convert sys main_name (Path figure_path_arg)
                (Path latexpand_path_arg) _) as [[success|e] st1].
    + destruct (final_report_done success st1) as [st' E]. rewrite E.
      destruct success; cbn [fst exit_status]; auto.
    + match goal with
      | |- context [final_report false ?s] =>
          destruct (final_report_done false s) as [st' E]
      end.
      rewrite E. cbn [fst exit_status]. split; [now right | discriminate].
  - destruct (main_validation_errors W sys main_name figure_path_arg
                latexpand_path_arg w log error errors Ev) as [prints [E _]].
    rewrite E. cbn [fst exit_status]. split; [now right | discriminate].
  - destruct (main_validation_raises W sys main_name figure_path_arg
                latexpand_path_arg w log e Ev) as [prints [E _]].
    rewrite E. cbn [fst exit_status]. split; [now right | discriminate].
Qed.


(** X7: a bibliography export that fails, by its status or by raising, is
    not fatal.  Once the target directory is there, the export is called
    once; whatever it returns, the run goes on with the expansion, in the
    world the export left, having printed after the call nothing when the
    export returned status 0 and the error and the warning otherwise. *)
Theorem prepare_survives_bibexport
        (main_name : text) (figure_path latexpand_path : path) (st st1 : state W) :
  target_ready sys st = Some st1 ->
  convert sys main_name figure_path latexpand_path st
  = bind (expand sys main_name latexpand_path)
         (fun success => later_stages sys success figure_path)
         (snd (os_system sys (bib_command main_name) (fst st1)),
          snd st1 ++ Print (txt "Running: bibliography export")
            :: System (bib_command main_name)
            :: export_report (fst (os_system sys (bib_command main_name) (fst st1)))).
Proof.
  intros H. unfold convert. unfold bind at 1.
  assert (E : prepare sys main_name st
              = (Done tt,
                 (snd (os_system sys (bib_command main_name) (fst st1)),
                  snd st1 ++ Print (txt "Running: bibliography export")
                    :: System (bib_command main_name)
                    :: export_report
                         (fst (os_system sys (bib_command main_name) (fst st1)))))).
  { unfold target_ready in H. unfold prepare, run_command_with_check.
    destruct st as [w log].
    cbv [bind print try call ret query_exn fst snd] in *.
    destruct (path_exists sys target_dir w) as [[|]|e]; [| |discriminate];
      cbn [negb].
    - injection H as <-. cbn [fst snd].
      destruct (os_system sys (bib_command main_name) w) as [[status|e] w'];
        cbn [fst snd export_report].
      + destruct (Z.eqb status 0); cbn [negb];
          rewrite <- !app_assoc; reflexivity.
      + cbn [negb fst snd]. rewrite <- !app_assoc. reflexivity.
    - destruct (mkdir_parents sys target_dir w) as [[[]|e] w1]; [|discriminate].
      injection H as <-. cbn [fst snd].
      destruct (os_system sys (bib_command main_name) w1) as [[status|e] w'];
        cbn [fst snd export_report].
      + destruct (Z.eqb status 0); cbn [negb];
          rewrite <- !app_assoc; reflexivity.
      + cbn [negb fst snd]. rewrite <- !app_assoc. reflexivity. }
  now rewrite E.
Qed.

End RunFacts.

(** ** The copier as a whole *)

Section CopierFacts.
Variable W : Type.
Variable sys : os W.

Lemma copy_loop_true (figures : list text) (figure_path target : path) :
  forall (i copied_count total : nat) (w w' : W) (log log' : list event),
    copy_loop sys i figures figure_path target copied_count total (w, log)
    = (Done true, (w', log')) ->
    exists evs,
      log' = log ++ evs
               ++ [summary_line (copied_count + length (filter is_copy evs)) total]
      /\ forallb (fun e => is_copy e || is_print e) evs = true
      /\ length evs = length figures.
Proof.
  induction figures as [|figure figures IH]; intros i c total w w' log log'.
  - cbn [copy_loop]. cbv [bind print ret fst snd]. intros [= <- <-].
    exists []. cbn [filter length app]. now rewrite Nat.add_0_r.
  - cbn [copy_loop]. unfold bind at 1.
    pose proof (probe_outcome W sys extensions
                  (joinpath figure_path (stem (Path figure)))
                  (joinpath target (txt "Fig" ++ decimal (i + 1)))
                  (stem (Path figure)) w log) as H.
    destruct (probe sys extensions _ _ _ (w, log)) as [[[]|e] [w1 log1]].
    + destruct H as [src [dst ->]]. intros E.
      apply IH in E as [evs [-> [Hk Hl]]].
      exists (Copy src dst :: evs). cbn [filter is_copy length forallb orb].
      rewrite Hk, Hl. split; [|split; reflexivity].
      rewrite <- !app_assoc. cbn [app].
      replace (c + 1 + length (filter is_copy evs))
        with (c + S (length (filter is_copy evs))) by lia.
      reflexivity.
    + destruct H as [-> ->]. intros E.
      apply IH in E as [evs [-> [Hk Hl]]].
      exists (Print (txt "Warning: No matching file found for "
                       ++ stem (Path figure)) :: evs).
      cbn [filter is_copy is_print length forallb orb].
      rewrite Hk, Hl. split; [|split; reflexivity].
      rewrite <- !app_assoc. reflexivity.
    + unfold ret. discriminate.
    + discriminate.
Qed.

(** X9: when [copy_figures] returns [True], it has logged one event for each
    reference, a copy or a warning, and then the summary, whose first
    number is the number of copies made and whose second is the number of
    references. *)
Theorem copy_figures_summary (figures : list text) (figure_path target : path)
        (w w' : W) (log log' : list event) :
  copy_figures sys figures figure_path target (w, log) = (Done true, (w', log')) ->
  exists evs,
    log' = log ++ evs
             ++ [summary_line (length (filter is_copy evs)) (length figures)]
    /\ forallb (fun e => is_copy e || is_print e) evs = true
    /\ length evs = length figures.
Proof.
  unfold copy_figures. intros H. apply copy_loop_true in H. exact H.
Qed.

Lemma split_on_without_sep (sep : char) (s : text) :
  Forall (fun l => forallb (fun c => negb (N.eqb c sep)) l = true)
         (split_on sep s).
Proof.
  induction s as [|c s IH]; simpl.
  - repeat constructor.
  - destruct (N.eqb c sep) eqn:Hc.
    + constructor; [reflexivity | assumption].
    + destruct (split_on sep s) as [|l ls].
      * repeat constructor. simpl. now rewrite Hc.
      * inversion IH as [|? ? Hl Hls]; subst. constructor; [|assumption].
        simpl. now rewrite Hc, Hl.
Qed.

Lemma last_Forall {A} (P : A -> Prop) (l : list A) (d : A) :
  Forall P l -> P d -> P (last l d).
Proof.
  induction 1 as [|x l Hx Hl IH]; intros Hd; [exact Hd|].
  destruct l; [exact Hx | now apply IH].
Qed.

Lemma Forall_filter {A} (P : A -> Prop) (f : A -> bool) (l : list A) :
  Forall P l -> Forall P (filter f l).
Proof.
  induction 1 as [|x l Hx Hl IH]; simpl; [constructor|].
  destruct (f x); [constructor|]; assumption.
Qed.

Lemma name_without_slash (s : text) :
  forallb (fun c => negb (N.eqb c slash)) (name (Path s)) = true.
Proof.
  unfold name, Path. cbn [parts].
  apply (last_Forall (fun l => forallb (fun c => negb (N.eqb c slash)) l = true));
    [|reflexivity].
  apply Forall_filter, split_on_without_sep.
Qed.

Lemma forallb_firstn (q : char -> bool) (n : nat) (l : text) :
  forallb q l = true -> forallb q (firstn n l) = true.
Proof.
  revert n. induction l as [|c l IH]; intros [|n]; simpl; auto.
  intros H. apply andb_prop in H as [Hc Hl]. now rewrite Hc, IH.
Qed.

Lemma stem_without_slash (s : text) :
  forallb (fun c => negb (N.eqb c slash)) (stem (Path s)) = true.
Proof.
  unfold stem. destruct (suffix_index (name (Path s)));
    [apply forallb_firstn|]; apply name_without_slash.
Qed.

Lemma Path_root_without_slash (x : text) :
  forallb (fun c => negb (N.eqb c slash)) x = true -> root (Path x) = [].
Proof.
  unfold Path. cbn [root].
  destruct x as [|a [|b [|c x]]]; [reflexivity| | |];
    simpl; intros H; apply andb_prop in H as [Ha _];
    apply negb_true_iff in Ha; now rewrite Ha.
Qed.

Lemma Path_parts_nonempty (x : text) :
  Forall (fun c => c <> []) (parts (Path x)).
Proof.
  unfold Path. cbn [parts]. induction (split_on slash x) as [|l ls IH];
    simpl; [constructor|].
  unfold is_component at 1. destruct (text_eqb l []) eqn:E; simpl; [exact IH|].
  destruct (text_eqb l [dot]); simpl; [exact IH|].
  constructor; [|exact IH]. intros ->. discriminate.
Qed.

(** Joining a name without a slash to a path that has a name gives a path
    that has a name. *)
Lemma name_joinpath (p : path) (x : text) :
  name p <> [] ->
  forallb (fun c => negb (N.eqb c slash)) x = true ->
  name (joinpath p x) <> [].
Proof.
  intros Hp Hx. unfold joinpath. rewrite (Path_root_without_slash x Hx).
  unfold name. cbn [parts].
  pose proof (Path_parts_nonempty x) as Hq.
  destruct (parts (Path x)) as [|y ys] using rev_ind.
  - now rewrite app_nil_r.
  - rewrite app_assoc, last_last.
    apply Forall_app in Hq as [_ Hq]. now inversion Hq.
Qed.

Lemma with_suffix_named (p : path) (sfx : text) :
  name p <> [] -> valid_suffix sfx = true ->
  exists q, with_suffix p sfx = Some q.
Proof.
  intros Hp Hv. unfold with_suffix. rewrite Hv.
  destruct (name p); [congruence | eexists; reflexivity].
Qed.

(** With a figure directory that has a name, an exception that leaves the
    loop is one of an [exists()] probe. *)
Lemma copy_loop_raises (figures : list text) (figure_path target : path) :
  name figure_path <> [] ->
  forall (i copied_count total : nat) (st st' : state W) (e : text),
    copy_loop sys i figures figure_path target copied_count total st
    = (Raised e, st') ->
    exists p, path_exists sys p (fst st') = Raised e.
Proof.
  intros Hp. induction figures as [|figure figures IH]; intros i c total st st' e.
  - cbn [copy_loop]. cbv [bind print ret]. discriminate.
  - cbn [copy_loop]. unfold bind at 1. destruct st as [w log].
    pose proof (probe_outcome W sys extensions
                  (joinpath figure_path (stem (Path figure)))
                  (joinpath target (txt "Fig" ++ decimal (i + 1)))
                  (stem (Path figure)) w log) as H.
    destruct (probe sys extensions _ _ _ (w, log)) as [[[]|e'] [w1 log1]].
    + apply IH.
    + apply IH.
    + unfold ret. discriminate.
    + intros [= <- <-]. destruct H as [[= -> ->] [H|[ext [Hin [H|H]]]]].
      * exact H.
      * exfalso.
        destruct (with_suffix_named (joinpath figure_path (stem (Path figure))) ext)
          as [q Eq]; [|now apply extensions_valid|congruence].
        apply name_joinpath; [assumption | apply stem_without_slash].
      * exfalso.
        destruct (with_suffix_named (joinpath target (txt "Fig" ++ decimal (i + 1)))
                    ext) as [q Eq]; [|now apply extensions_valid|congruence].
        rewrite (joinpath_plain _ _ (figure_name_plain (i + 1))), name_child.
        discriminate.
Qed.


(** X23: a reference whose base name is plain and for which none of
    [base.pdf], [base.png], [base.jpg], [base.jpeg] exists in the figure
    directory is a warning: the world is left as it is and the loop goes on
    with the remaining references, the count unchanged. *)
Theorem copy_loop_missing_reference
        (i : nat) (figure : text) (figures : list text) (figure_path target : path)
        (copied_count total : nat) (w : W) (log : list event) :
  plain_name (stem (Path figure)) = true ->
  no_candidate sys extensions figure_path (stem (Path figure)) w = true ->
  copy_loop sys i (figure :: figures) figure_path target copied_count total (w, log)
  = copy_loop sys (S i) figures figure_path target copied_count total
      (w, log ++ [warning_line figure]).
Proof.
  intros Hb H. cbn [copy_loop]. unfold bind at 1.
  rewrite (joinpath_plain _ _ Hb).
  now rewrite (probe_missing W sys _ _ _ _ _ _ _ Hb extensions_valid H).
Qed.

(** X24: when the copy of the first existing candidate of a reference with a
    plain base name raises, the loop ends at once with [False]: the error
    line is printed, the remaining references are not looked at and no
    summary is printed. *)
Theorem copy_loop_copy_raises
        (i : nat) (figure : text) (figures : list text) (figure_path target : path)
        (copied_count total : nat) (w w' : W) (log : list event) (ext e : text) :
  plain_name (stem (Path figure)) = true ->
  first_candidate sys extensions figure_path (stem (Path figure)) w = Some ext ->
  shutil_copy sys (child figure_path (stem (Path figure) ++ ext))
              (child target (txt "Fig" ++ decimal (i + 1) ++ ext)) w
  = (Raised e, w') ->
  copy_loop sys i (figure :: figures) figure_path target copied_count total (w, log)
  = (Done false,
     (w', log ++ [Copy (child figure_path (stem (Path figure) ++ ext))
                       (child target (txt "Fig" ++ decimal (i + 1) ++ ext));
                  copy_error_line (child figure_path (stem (Path figure) ++ ext)) e])).
Proof.
  intros Hb Hf Hc. cbn [copy_loop]. unfold bind at 1.
  assert (Hin : In ext extensions).
  { revert Hf. generalize extensions as exts.
    induction exts as [|x exts IH]; [discriminate|]. cbn [first_candidate].
    destruct (path_exists sys _ w) as [[|]|e']; [| |discriminate].
    - intros [= ->]. now left.
    - intros H. right. auto. }
  rewrite (joinpath_plain _ _ Hb).
  rewrite (probe_first_candidate W sys _ _ _ _ _ ext
             (child target (txt "Fig" ++ decimal (i + 1) ++ ext)) _ _
             Hb extensions_valid Hf (target_file _ _ _ Hin)).
  rewrite Hc. unfold ret. now rewrite <- app_assoc.
Qed.

(** X25: [copy_figures] returns [False] only right after a copy has raised:
    the last two events are then the copy and its error line. *)
Theorem copy_figures_false_after_copy_error
        (figures : list text) (figure_path target : path)
        (w : W) (log : list event) (st : state W) :
  copy_figures sys figures figure_path target (w, log) = (Done false, st) ->
  exists src dst e l, snd st = l ++ [Copy src dst; copy_error_line src e].
Proof. unfold copy_figures. apply copy_loop_false. Qed.

(** X26: an [exists()] probe that raises is not caught by the copier: for a
    reference with a plain base name, when the probes before it have found
    nothing, the exception leaves [copy_figures] at once, with no warning,
    no copy and no summary, the remaining references not looked at. *)
Theorem copy_loop_exists_raises
        (i : nat) (figure : text) (figures : list text) (figure_path target : path)
        (copied_count total : nat) (w : W) (log : list event) (e : text) :
  plain_name (stem (Path figure)) = true ->
  raising_candidate sys extensions figure_path (stem (Path figure)) w = Some e ->
  copy_loop sys i (figure :: figures) figure_path target copied_count total (w, log)
  = (Raised e, (w, log)).
Proof.
  intros Hb H. cbn [copy_loop]. unfold bind at 1.
  rewrite (joinpath_plain _ _ Hb).
  now rewrite (probe_raising W sys _ _ _ _ _ _ _ _ Hb extensions_valid H).
Qed.

(** X27: when every reference has a plain base name and none of its four
    candidates exists, [copy_figures] returns [True]: the world is left as
    it is, and what is logged is one warning for each reference, in order,
    and the summary with a count of 0. *)
Theorem copy_figures_all_missing
        (figures : list text) (figure_path target : path)
        (w : W) (log : list event) :
  forallb (fun figure =>
             plain_name (stem (Path figure))
             && no_candidate sys extensions figure_path (stem (Path figure)) w)
          figures = true ->
  copy_figures sys figures figure_path target (w, log)
  = (Done true,
     (w, log ++ map warning_line figures ++ [summary_line 0 (length figures)])).
Proof.
  unfold copy_figures. generalize (length figures) as n.
  generalize 0 at 1 as j. revert log.
  induction figures as [|f fs IH]; intros log j n H.
  - reflexivity.
  - cbn [forallb] in H. apply andb_prop in H as [Hf Hfs].
    apply andb_prop in Hf as [Hb Hn].
    cbn [copy_loop]. unfold bind at 1. rewrite (joinpath_plain _ _ Hb).
    rewrite (probe_missing W sys _ _ _ _ _ _ _ Hb extensions_valid Hn).
    fold (warning_line f).
    rewrite (IH _ _ _ Hfs). cbn [map]. now rewrite <- app_assoc.
Qed.

(** X11: when the figure directory path has no name and the base name of a
    reference is empty, as for [\includegraphics{}] with the directory [.],
    the probe path cannot be formed: [copy_figures] raises before any copy
    or warning for this reference, and the remaining references are not
    looked at. *)
Theorem copy_loop_empty_name
        (i : nat) (figure : text) (figures : list text) (figure_path target : path)
        (copied_count total : nat) (st : state W) :
  name figure_path = [] -> stem (Path figure) = [] ->
  copy_loop sys i (figure :: figures) figure_path target copied_count total st
  = (Raised (empty_name_error (joinpath figure_path [])), st).
Proof.
  intros Hp Hs. cbn [copy_loop]. rewrite Hs. unfold bind at 1.
  cbn [extensions probe]. unfold bind at 1.
  assert (E : with_suffix (joinpath figure_path []) (txt ".pdf") = None).
  { unfold with_suffix.
    replace (name (joinpath figure_path [])) with (@nil char);
      [now destruct (valid_suffix (txt ".pdf"))|].
    unfold joinpath, name. cbn [Path root parts split_on filter].
    cbn [is_component text_eqb]. simpl. rewrite app_nil_r.
    symmetry. exact Hp. }
  rewrite E. reflexivity.
Qed.

End CopierFacts.

(** ** The stages after the expansion *)

Section LaterStages.
Variable W : Type.
Variable sys : os W.

(** X8: when a copy raises, so that [copy_figures] returns [False], the run
    stops there: the later stages are skipped, [tmp.tex] is neither moved
    nor rewritten, and the only event added is the error line. *)
Theorem copy_failure_stops_pipeline
        (figure_path : path) (w : W) (log : list event) (content figure : text)
        (figures : list text) (st : state W) :
  read_text sys tmp_tex w = Done content ->
  extract_figure_names content = figure :: figures ->
  copy_figures sys (figure :: figures) figure_path target_dir
               (w, log ++ [read_line; found_line (length (figure :: figures))])
  = (Done false, st) ->
  later_stages sys true figure_path (w, log)
  = (Done false,
     (fst st, snd st ++ [Print (txt "Error: Failed to copy all figures")])).
Proof.
  intros Hr He Hc. unfold later_stages, load.
  cbv [bind try query_exn print ret fst snd]. rewrite Hr. cbv beta iota.
  unfold extract_and_copy. rewrite He.
  cbv [bind try query_exn print ret fst snd].
  unfold read_line, found_line in Hc.
  replace ((log ++ [Print (txt "Successfully read expanded LaTeX file")])
             ++ [Print (txt "Found " ++ decimal (length (figure :: figures))
                          ++ txt " figures to copy")])
    with (log ++ [Print (txt "Successfully read expanded LaTeX file");
                  Print (txt "Found " ++ decimal (length (figure :: figures))
                           ++ txt " figures to copy")])
    by (now rewrite <- app_assoc).
  rewrite Hc. destruct st as [w' log']. reflexivity.
Qed.

Lemma load_true (success : bool) (content : text) (st st' : state W) :
  load sys success st = (Done (true, content), st') ->
  read_text sys tmp_tex (fst st) = Done content
  /\ st' = (fst st, snd st ++ [read_line]).
Proof.
  unfold load. destruct success; [|discriminate].
  cbv [bind try query_exn print ret fst snd]. destruct st as [w log].
  destruct (read_text sys tmp_tex w) as [c|e] eqn:Er; [|discriminate].
  intros [= <- <-]. auto.
Qed.

Lemma extract_and_copy_true (success : bool) (content : text) (figure_path : path)
      (figures : list text) (st st' : state W) :
  extract_and_copy sys success content figure_path st = (Done (true, figures), st') ->
  success = true /\ figures = extract_figure_names content.
Proof.
  unfold extract_and_copy. destruct success; [|discriminate].
  cbv [bind print ret fst snd].
  destruct (extract_figure_names content) as [|f fs].
  - intros [= <- _]. auto.
  - destruct (copy_figures sys (f :: fs) figure_path target_dir _)
      as [[[]|e] st1]; cbn [negb]; [| |discriminate].
    + intros [= <- _]. auto.
    + discriminate.
Qed.

Lemma copy_all_log (files : list path) (dst : path) :
  forall (st : state W) (r : outcome unit) (st' : state W),
    copy_all sys files dst st = (r, st') -> exists l, snd st' = snd st ++ l.
Proof.
  induction files as [|file files IH]; intros [w log] r st'.
  - cbn [copy_all]. unfold ret. intros [= <- <-]. exists [].
    now rewrite app_nil_r.
  - cbn [copy_all]. unfold bind at 1. unfold call at 1. cbn [fst snd].
    destruct (shutil_copy sys file dst w) as [[[]|e] w'].
    + intros H. apply IH in H as [l ->]. cbn [snd].
      exists (Copy file dst :: l). now rewrite <- app_assoc.
    + intros [= <- <-]. now exists [Copy file dst].
Qed.

Lemma copy_style_files_log (types : list (text * text)) :
  forall (st : state W) (r : outcome unit) (st' : state W),
    copy_style_files sys types st = (r, st') -> exists l, snd st' = snd st ++ l.
Proof.
  induction types as [|[pattern file_type] types IH]; intros [w log] r st'.
  - cbn [copy_style_files]. unfold ret. intros [= <- <-]. exists [].
    now rewrite app_nil_r.
  - cbn [copy_style_files]. unfold bind at 1. unfold query_exn at 1. cbn [fst].
    destruct (glob sys pattern w) as [[|file files]|e].
    + unfold bind at 1. unfold ret at 1. apply IH.
    + unfold bind at 1. unfold bind at 1.
      destruct (copy_all sys (file :: files) target_dir (w, log))
        as [[[]|e] [w1 log1]] eqn:E1;
        apply copy_all_log in E1 as [l1 E1]; cbn [snd] in E1; subst log1.
      * unfold print at 1. cbn [fst snd]. intros H.
        apply IH in H as [l2 ->]. cbn [snd]. eexists.
        rewrite <- !app_assoc. reflexivity.
      * intros [= <- <-]. now exists l1.
    + intros [= <- <-]. exists []. cbn [snd]. now rewrite app_nil_r.
Qed.

Lemma relocate_true (success : bool) (st st' : state W) :
  relocate sys success st = (Done true, st') ->
  success = true
  /\ exists l, snd st' = snd st ++ Move tmp_tex transformed_main :: l.
Proof.
  unfold relocate. destruct success; [|discriminate]. intros H.
  split; [reflexivity|].
  revert H. unfold try. unfold bind at 1. unfold bind at 1.
  unfold call at 1. destruct st as [w log]. cbn [fst snd].
  fold transformed_main.
  destruct (shutil_move sys tmp_tex transformed_main w) as [[[]|e] wm].
  - unfold bind at 1. unfold print at 1. cbn [fst snd].
    match goal with
    | |- context [copy_style_files sys file_types ?s] =>
        destruct (copy_style_files sys file_types s) as [[[]|e] [w3 log3]] eqn:E
    end; apply copy_style_files_log in E as [l E]; cbn [snd] in E; subst log3.
    + unfold ret. intros [= <-]. cbn [snd]. eexists.
      rewrite <- !app_assoc. reflexivity.
    + cbv [bind print ret fst snd]. discriminate.
  - cbv [bind print ret fst snd]. discriminate.
Qed.

Lemma reread_true (success : bool) (content content' : text) (st st' : state W) :
  reread sys success content st = (Done (true, content'), st') ->
  success = true
  /\ exists w1,
       os_chdir sys target_dir (fst st) = (Done tt, w1)
       /\ read_text sys (Path (txt "Main.tex")) w1 = Done content'
       /\ st' = (w1, snd st ++ [Chdir target_dir; reread_line]).
Proof.
  unfold reread. destruct success; [|discriminate]. intros H.
  split; [reflexivity|].
  revert H. cbv [bind try call query_exn print ret fst snd].
  destruct st as [w log].
  destruct (os_chdir sys target_dir w) as [[[]|e] w1] eqn:Ec; [|discriminate].
  destruct (read_text sys (Path (txt "Main.tex")) w1) as [c|e] eqn:Er;
    [|discriminate].
  intros [= <- <-]. exists w1. cbn [fst snd].
  split; [reflexivity|]. split; [exact Er|]. now rewrite <- app_assoc.
Qed.

Lemma rewrite_main_true (success : bool) (content : text) (figures : list text)
      (st st' : state W) :
  rewrite_main sys success content figures st = (Done true, st') ->
  success = true
  /\ write_text sys (Path (txt "Main.tex")) (rewritten_text figures content) (fst st)
     = (Done tt, fst st')
  /\ snd st' = snd st ++ [Write (Path (txt "Main.tex"))
                                (rewritten_text figures content);
                          updated_line].
Proof.
  unfold rewrite_main. destruct success; [|discriminate].
  cbv [bind try call print ret fst snd]. destruct st as [w log].
  fold (rewritten_text figures content).
  destruct (write_text sys _ _ w) as [[[]|e] w'] eqn:Ew; [|discriminate].
  intros [= <-]. cbn [fst snd]. split; [reflexivity|].
  split; [reflexivity | now rewrite <- app_assoc].
Qed.

(** What a run of the later stages that ends well has done. *)
Lemma later_stages_true (success : bool) (figure_path : path) (st st' : state W) :
  later_stages sys success figure_path st = (Done true, st') ->
  exists content0 w3 w1 content l,
    read_text sys tmp_tex (fst st) = Done content0
    /\ os_chdir sys target_dir w3 = (Done tt, w1)
    /\ read_text sys (Path (txt "Main.tex")) w1 = Done content
    /\ write_text sys (Path (txt "Main.tex"))
                  (rewritten_text (extract_figure_names content0) content) w1
       = (Done tt, fst st')
    /\ snd st' = l ++ [Chdir target_dir; reread_line;
                       Write (Path (txt "Main.tex"))
                             (rewritten_text (extract_figure_names content0) content);
                       updated_line]
    /\ In (Move tmp_tex transformed_main) l.
Proof.
  unfold later_stages. unfold bind at 1.
  destruct (load sys success st) as [[[s1 c1]|e] st1] eqn:E1; [|discriminate].
  unfold bind at 1. cbn [fst snd].
  destruct (extract_and_copy sys s1 c1 figure_path st1) as [[[s2 figs]|e] st2] eqn:E2;
    [|discriminate].
  unfold bind at 1. cbn [fst snd].
  destruct (relocate sys s2 st2) as [[s3|e] st3] eqn:E3; [|discriminate].
  unfold bind at 1.
  destruct (reread sys s3 c1 st3) as [[[s4 c4]|e] st4] eqn:E4; [|discriminate].
  cbn [fst snd]. intros H. apply rewrite_main_true in H as [-> [Hw Hl]].
  apply reread_true in E4 as [-> [w1 [Hc [Hr ->]]]].
  apply relocate_true in E3 as [-> [l E3]].
  apply extract_and_copy_true in E2 as [-> ->].
  apply load_true in E1 as [E1 _].
  exists c1, (fst st3), w1, c4, (snd st3). cbn [fst snd] in *.
  repeat split; try assumption.
  - rewrite Hl, <- app_assoc. reflexivity.
  - rewrite E3. apply in_or_app. right. now left.
Qed.

Lemma expand_true (main_name : text) (latexpand_path : path) (st st' : state W) :
  expand sys main_name latexpand_path st = (Done true, st') ->
  fst st' = snd (os_system sys (latexpand_command main_name latexpand_path) (fst st)).
Proof.
  unfold expand, run_command_with_check.
  cbv [bind print try call ret query_exn fst snd]. destruct st as [w log].
  destruct (os_system sys (latexpand_command main_name latexpand_path) w)
    as [[status|e] w']; [|discriminate].
  destruct (Z.eqb status 0); cbn [negb]; [|discriminate].
  destruct (path_exists sys tmp_tex w') as [[|]|e]; cbn [negb];
    [|discriminate|discriminate].
  destruct (stat_size sys tmp_tex w') as [size|e]; [|discriminate].
  destruct (N.eqb size 0); [discriminate|]. now intros [= <-].
Qed.

(** X17: exit status 0 is reported only after [Main.tex] was written.  The
    text written is made from two texts: the one read from [tmp.tex] in the
    world the expansion tool left, whose figure references are the names
    renamed, and the one read from [Main.tex] after the change to the target
    directory, which is renamed, stripped of the search path and repointed
    to the bibliography; it is written in the world in which it was read,
    after [tmp.tex] was moved to the target directory, and after the write
    the script only prints. *)
Theorem main_success_wrote_main_tex
        (main_name figure_path_arg latexpand_path_arg : text)
        (w : W) (log : list event) (st' : state W) :
  main sys main_name figure_path_arg latexpand_path_arg (w, log) = (Done 0, st') ->
  exists wp content0 w3 w1 content l prints,
    read_text sys tmp_tex
              (snd (os_system sys
                      (latexpand_command main_name (Path latexpand_path_arg)) wp))
    = Done content0
    /\ os_chdir sys target_dir w3 = (Done tt, w1)
    /\ read_text sys (Path (txt "Main.tex")) w1 = Done content
    /\ write_text sys (Path (txt "Main.tex"))
                  (rewritten_text (extract_figure_names content0) content) w1
       = (Done tt, fst st')
    /\ snd st' = l ++ Chdir target_dir :: reread_line
                   :: Write (Path (txt "Main.tex"))
                            (rewritten_text (extract_figure_names content0) content)
                   :: prints
    /\ In (Move tmp_tex transformed_main) l
    /\ forallb is_print prints = true.
Proof.
  destruct (validate_inputs sys main_name (Path figure_path_arg)
              (Path latexpand_path_arg) w) as [[|error errors]|e] eqn:Ev.
  - unfold main. unfold bind at 1. unfold banner.
    cbv [bind print fst snd ret query_exn]. rewrite Ev.
    cbv beta iota. unfold try.
    destruct (convert sys main_name (Path figure_path_arg)
                (Path latexpand_path_arg) _) as [[[]|e] st1] eqn:Ec.
    + unfold convert in Ec. unfold bind at 1 in Ec.
      destruct (prepare sys main_name _) as [[[]|e] st0]; [|discriminate].
      unfold bind at 1 in Ec.
      destruct (expand sys main_name (Path latexpand_path_arg) st0)
        as [[s|e] st2] eqn:Ee; [|discriminate].
      destruct s; [|rewrite (later_stages_skipped W sys) in Ec; discriminate].
      apply later_stages_true in Ec
        as [content0 [w3 [w1 [content [l [Hr [Hc [Hm [Hw [Hl Hin]]]]]]]]]].
      apply expand_true in Ee. rewrite Ee in Hr.
      destruct st1 as [w' log1]. cbn [fst snd] in Hw, Hl. subst log1.
      unfold final_report. cbv [bind print fst snd ret]. intros [= <-].
      exists (fst st0), content0, w3, w1, content, l. eexists. cbn [fst snd].
      repeat split; try eassumption.
      * rewrite <- !app_assoc. reflexivity.
      * reflexivity.
    + destruct (final_report_done W false st1) as [st2 E]. rewrite E.
      discriminate.
    + match goal with
      | |- context [final_report false ?s] =>
          destruct (final_report_done W false s) as [st2 E]
      end.
      rewrite E. discriminate.
  - destruct (main_validation_errors W sys main_name figure_path_arg
                latexpand_path_arg w log error errors Ev) as [prints [E _]].
    rewrite E. discriminate.
  - destruct (main_validation_raises W sys main_name figure_path_arg
                latexpand_path_arg w log e Ev) as [prints [E _]].
    rewrite E. discriminate.
Qed.

End LaterStages.

(** ** Rewriting twice *)

Section RewriteTwice.
Variable base : text.
Variable arg0 : text.
Hypothesis base_plain : no_backslash base = true.
Hypothesis arg0_plain : forallb not_rbrace arg0 = true.

Lemma repl_is_command :
  is_command (backslash :: base) (command_text base arg0).
Proof. exists [], arg0. repeat split; auto. Qed.

Lemma command_end_repl (t : text) :
  command_end (backslash :: base) (command_text base arg0 ++ t) = Some t.
Proof.
  apply command_end_shape. exists (command_text base arg0).
  split; [apply repl_is_command | reflexivity].
Qed.

Lemma is_command_head (d : text) :
  is_command (backslash :: base) d ->
  (exists d', d = backslash :: d') /\ In rbrace d.
Proof.
  intros [ws [arg [-> _]]]. split.
  - eexists. rewrite <- app_comm_cons. reflexivity.
  - rewrite <- app_comm_cons. right. apply in_or_app. right.
    apply in_or_app. right. right. apply in_or_app. right. now left.
Qed.

(** Up to the first backslash of the output, the input reads the same. *)
Lemma rewritten_prefix (t out : text) :
  rewritten (backslash :: base) (command_text base arg0) t out ->
  forall u v, out = u ++ v -> no_backslash u = true ->
    exists v', t = u ++ v'
               /\ rewritten (backslash :: base) (command_text base arg0) v' v.
Proof.
  induction 1 as [|d t out Hd Hr IH|c t out Hc Hr IH]; intros u v E Hu.
  - destruct u; [|discriminate]. cbn [app] in E. subst v.
    exists []. split; [reflexivity | constructor].
  - destruct u as [|x u].
    + cbn [app] in E. subst v. exists (d ++ t). split; [reflexivity|].
      now apply rw_command.
    + unfold command_text in E. rewrite <- !app_comm_cons in E.
      injection E as <- _. discriminate.
  - destruct u as [|x u].
    + cbn [app] in E. subst v. exists (c :: t). split; [reflexivity|].
      now apply rw_char.
    + rewrite <- app_comm_cons in E. injection E as <- ->.
      unfold no_backslash in Hu. cbn [forallb] in Hu.
      apply andb_prop in Hu as [_ Hu].
      destruct (IH u v eq_refl Hu) as [v' [-> Hv]].
      exists v'. split; [reflexivity | assumption].
Qed.

(** A closing brace of the output comes from one of the input. *)
Lemma rewritten_rbrace (t out : text) :
  rewritten (backslash :: base) (command_text base arg0) t out ->
  In rbrace out -> In rbrace t.
Proof.
  induction 1 as [|d t out Hd Hr IH|c t out Hc Hr IH]; intros H.
  - exact H.
  - apply in_or_app. left. now destruct (is_command_head d Hd) as [_ Hin].
  - destruct H as [->|H]; [now left | right; auto].
Qed.

Lemma first_rbrace (v : text) :
  In rbrace v ->
  exists a b, v = a ++ rbrace :: b /\ forallb not_rbrace a = true.
Proof.
  intros H. destruct (drop_while_split not_rbrace v) as [a [E Ha]].
  destruct (drop_while not_rbrace v) as [|x b] eqn:Ed.
  - rewrite app_nil_r in E. subst a. exfalso.
    rewrite forallb_forall in Ha. specialize (Ha rbrace H). discriminate.
  - apply drop_while_head in Ed. unfold not_rbrace in Ed.
    apply negb_false_iff, N.eqb_eq in Ed. subst x. now exists a, b.
Qed.

Lemma spaces_no_backslash (ws : text) :
  forallb is_space ws = true -> no_backslash ws = true.
Proof.
  unfold no_backslash. induction ws as [|c ws IH]; [reflexivity|].
  cbn [forallb]. intros H. apply andb_prop in H as [Hc Hw].
  rewrite (IH Hw). destruct (N.eqb_spec c backslash) as [->|_];
    [discriminate | reflexivity].
Qed.

(** An output of the rewriting is left as it is by a second pass. *)
Lemma sub_rewritten_fixed (s out : text) :
  rewritten (backslash :: base) (command_text base arg0) s out ->
  sub (braced_command (backslash :: base)) (command_text base arg0) out = out.
Proof.
  induction 1 as [|d t out Hd Hr IH|c t out Hc Hr IH].
  - apply sub_nil.
  - rewrite (sub_command _ _ _ out (command_end_repl out)). now rewrite IH.
  - destruct (command_end (backslash :: base) (c :: out)) as [r|] eqn:E.
    + exfalso. apply command_end_shape in E as [d [[ws [arg [-> [Hws Harg]]]] E]].
      rewrite <- !app_assoc, <- app_comm_cons in E.
      injection E as -> E.
      assert (Eo : out = (base ++ ws ++ [lbrace]) ++ (arg ++ rbrace :: r)).
      { rewrite E. repeat (rewrite <- app_assoc || rewrite <- app_comm_cons).
        reflexivity. }
      assert (Hu : no_backslash (base ++ ws ++ [lbrace]) = true).
      { unfold no_backslash. rewrite !forallb_app.
        repeat (apply andb_true_intro; split); try reflexivity;
          [exact base_plain | exact (spaces_no_backslash ws Hws)]. }
      destruct (rewritten_prefix t out Hr _ _ Eo Hu) as [v' [Et Hv]].
      assert (Hin : In rbrace v').
      { apply (rewritten_rbrace v' _ Hv). apply in_or_app. right. now left. }
      destruct (first_rbrace v' Hin) as [a [b [-> Ha]]].
      apply (Hc ((backslash :: base) ++ ws ++ lbrace :: a ++ [rbrace]) b).
      * now exists ws, a.
      * rewrite Et.
        repeat (rewrite <- app_assoc || rewrite <- app_comm_cons). reflexivity.
    + rewrite (sub_char _ _ c out E). now rewrite IH.
Qed.

Lemma sub_twice (s : text) :
  sub (braced_command (backslash :: base)) (command_text base arg0)
      (sub (braced_command (backslash :: base)) (command_text base arg0) s)
  = sub (braced_command (backslash :: base)) (command_text base arg0) s.
Proof. apply (sub_rewritten_fixed s), sub_rewritten. Qed.

End RewriteTwice.

Section RewriterFacts.

(** X13: the bibliography rewrite is idempotent: what it returns it leaves
    unchanged. *)
Theorem rewrite_bibliography_idempotent (s : text) :
  rewrite_bibliography (rewrite_bibliography s) = rewrite_bibliography s.
Proof.
  exact (sub_twice (txt "bibliography") (txt "References") eq_refl eq_refl s).
Qed.

(** X14: of [\graphicspath{{dir}}], the form with an inner pair of braces,
    the strip takes everything up to the first closing brace and leaves the
    second in the text. *)
Theorem strip_graphicspath_inner_braces (dir post : text) :
  forallb not_rbrace dir = true ->
  strip_graphicspath (txt "\graphicspath{{" ++ dir ++ txt "}}" ++ post)
  = rbrace :: strip_graphicspath post.
Proof.
  intros Hd. unfold strip_graphicspath, graphicspath_pattern.
  rewrite (sub_command (txt "\graphicspath") [] _ (rbrace :: post)).
  - cbn [app]. apply sub_char. reflexivity.
  - apply command_end_shape.
    exists (txt "\graphicspath" ++ [] ++ lbrace :: (lbrace :: dir) ++ [rbrace]).
    split.
    + exists [], (lbrace :: dir). repeat split; auto.
    + change (txt "\graphicspath{{") with (txt "\graphicspath" ++ [lbrace; lbrace]).
      change (txt "}}") with [rbrace; rbrace].
      repeat (rewrite <- app_assoc || rewrite <- app_comm_cons). reflexivity.
Qed.

Lemma replace_from_absent (old new s : text) :
  occurs old s = false -> replace_from old new s 0 = s.
Proof.
  induction s as [|c s IH]; [reflexivity|].
  intros H. apply occurs_cons in H as [Hc Hs].
  cbn [replace_from]. rewrite Hc. f_equal. auto.
Qed.

(** X16: when [.tex] does not occur in the name of the main document, the
    auxiliary file is the main document itself, so that the check for the
    auxiliary file reports nothing once the main document exists. *)
Theorem aux_file_without_tex (W : Type) (sys : os W) (main_name : text) (w : W) :
  occurs (txt ".tex") main_name = false ->
  aux_file main_name = main_name
  /\ (path_exists sys (Path main_name) w = Done true ->
      aux_file_errors sys main_name w = Done []).
Proof.
  intros H. assert (E : aux_file main_name = main_name)
    by (rewrite aux_file_replace_from; now apply replace_from_absent).
  split; [exact E|]. unfold aux_file_errors. rewrite E. now intros ->.
Qed.

End RewriterFacts.

(** ** The validator as a whole *)

Section ValidatorFacts.
Variable W : Type.
Variable sys : os W.

(** X21: the checks of the validator are not short-circuited: when its
    existence checks answer, each contributes its message or nothing
    whatever the others answered, in the order main document, auxiliary
    file, figure directory, expander; the expander contributes one message
    at most, that it is missing or, when it exists, that it is a
    directory. *)
Theorem validate_inputs_independent
        (main_name : text) (figure_path latexpand_path : path) (w : W)
        (a b c d e : bool) :
  path_exists sys (Path main_name) w = Done a ->
  path_exists sys (Path (aux_file main_name)) w = Done b ->
  path_exists sys figure_path w = Done c ->
  path_exists sys latexpand_path w = Done d ->
  (d = true -> path_is_dir sys latexpand_path w = Done e) ->
  validate_inputs sys main_name figure_path latexpand_path w
  = Done (check a (main_file_message main_name)
          ++ check b (aux_file_message main_name)
          ++ check c (figure_path_message figure_path)
          ++ (if d then check (negb e) (latexpand_directory_message latexpand_path)
              else [latexpand_missing_message latexpand_path])).
Proof.
  intros Ha Hb Hc Hd He. rewrite validate_inputs_checks.
  unfold main_file_errors, aux_file_errors, figure_path_errors, latexpand_errors.
  rewrite Ha, Hb, Hc, Hd. cbn [and_then].
  destruct d; [rewrite (He eq_refl)|]; reflexivity.
Qed.

(** X22: the validation gate.  When the validator reports an error, the run
    ends with status 1 having only printed: the world is unchanged, no
    directory is made and no command is run.  When a check of the validator
    raises, the exception leaves the script, which has only printed its
    banner: the validator is called before the [try]. *)
Theorem validation_gate (main_name figure_path_arg latexpand_path_arg : text)
        (w : W) (log : list event) :
  (forall error errors,
      validate_inputs sys main_name (Path figure_path_arg) (Path latexpand_path_arg) w
      = Done (error :: errors) ->
      exists prints,
        main sys main_name figure_path_arg latexpand_path_arg (w, log)
        = (Done 1, (w, log ++ prints))
        /\ forallb is_print prints = true)
  /\ (forall e,
        validate_inputs sys main_name (Path figure_path_arg)
                        (Path latexpand_path_arg) w = Raised e ->
        exists prints,
          main sys main_name figure_path_arg latexpand_path_arg (w, log)
          = (Raised e, (w, log ++ prints))
          /\ forallb is_print prints = true).
Proof.
  split.
  - intros error errors H. now apply (main_validation_errors W sys) with error errors.
  - intros e H. now apply main_validation_raises.
Qed.

End ValidatorFacts.

(** ** Instances *)

Lemma extract_figure_names_sound_witness :
  exists a o b,
    sample_document = a ++ directive_text o (txt "plots/a") ++ b
    /\ forallb any_but_nl (txt "plots/a") = true
    /\ forallb not_rbrace (txt "plots/a") = true.
Proof.
  exact (extract_figure_names_sound sample_document (txt "plots/a")
           (or_introl eq_refl)).
Defined.

Lemma extract_figure_names_none_witness :
  extract_figure_names sample_preamble = [].
Proof. exact (extract_figure_names_none sample_preamble eq_refl). Defined.

Lemma extract_figure_names_single_witness :
  extract_figure_names
    (txt "see " ++ directive_text (Some (txt "width=3cm")) (txt "plots/a")
       ++ txt " here")
  = [txt "plots/a"].
Proof.
  exact (extract_figure_names_single (txt "see ") (txt " here") (txt "plots/a")
           (Some (txt "width=3cm")) eq_refl eq_refl eq_refl eq_refl eq_refl).
Defined.

Lemma prepare_survives_bibexport_witness :
  convert SimpleFs.simple_os (txt "Main.tex") (Path (txt "../Figures"))
          (Path (txt "../latexpand")) (no_bibexport, [])
  = bind (expand SimpleFs.simple_os (txt "Main.tex") (Path (txt "../latexpand")))
         (fun success =>
            later_stages SimpleFs.simple_os success (Path (txt "../Figures")))
         (snd (os_system SimpleFs.simple_os (bib_command (txt "Main.tex"))
                         (fst no_bibexport_ready)),
          snd no_bibexport_ready ++ Print (txt "Running: bibliography export")
            :: System (bib_command (txt "Main.tex"))
            :: export_report
                 (fst (os_system SimpleFs.simple_os (bib_command (txt "Main.tex"))
                                 (fst no_bibexport_ready)))).
Proof.
  exact (prepare_survives_bibexport _ SimpleFs.simple_os (txt "Main.tex")
           (Path (txt "../Figures")) (Path (txt "../latexpand"))
           (no_bibexport, []) no_bibexport_ready eq_refl).
Defined.

Lemma copy_failure_stops_pipeline_witness :
  later_stages SimpleFs.simple_os true (Path (txt "figs")) (locked_with_tmp, [])
  = (Done false,
     (fst (snd locked_copy),
      snd (snd locked_copy) ++ [Print (txt "Error: Failed to copy all figures")])).
Proof.
  exact (copy_failure_stops_pipeline _ SimpleFs.simple_os (Path (txt "figs"))
           locked_with_tmp [] (txt "\includegraphics{b}") (txt "b") []
           (snd locked_copy) eq_refl eq_refl eq_refl).
Defined.

Lemma copy_figures_summary_witness :
  exists evs,
    snd (snd two_figures_copied)
    = [] ++ evs ++ [summary_line (length (filter is_copy evs)) 3]
    /\ forallb (fun e => is_copy e || is_print e) evs = true
    /\ length evs = 3.
Proof.
  exact (copy_figures_summary _ SimpleFs.simple_os
           [txt "a"; txt "b"; txt "sub/c.pdf"] (Path (txt "figs")) target_dir
           two_figures (fst (snd two_figures_copied)) []
           (snd (snd two_figures_copied)) eq_refl).
Defined.


Lemma copy_loop_empty_name_witness :
  copy_loop SimpleFs.simple_os 0 [txt ""; txt "a"] (Path (txt ".")) target_dir 0 2
            (two_figures, [])
  = (Raised (empty_name_error (joinpath (Path (txt ".")) [])), (two_figures, [])).
Proof.
  exact (copy_loop_empty_name _ SimpleFs.simple_os 0 (txt "") [txt "a"]
           (Path (txt ".")) target_dir 0 2 (two_figures, []) eq_refl eq_refl).
Defined.

Lemma copy_loop_plain_reference_witness :
  copy_loop SimpleFs.simple_os 1 [txt "sub/c.pdf"] (Path (txt "figs")) target_dir
            1 3 (two_figures, [])
  = copy_loop SimpleFs.simple_os 2 [] (Path (txt "figs")) target_dir (1 + 1) 3
      (snd (SimpleFs.copy (Path (txt "figs/c.pdf"))
                          (Path (txt "transformed/Fig2.pdf")) two_figures),
       [] ++ [Copy (child (Path (txt "figs")) (txt "c" ++ txt ".pdf"))
                   (child target_dir (txt "Fig" ++ decimal (1 + 1) ++ txt ".pdf"))]).
Proof.
  exact (copy_loop_plain_reference _ SimpleFs.simple_os 1 (txt "sub/c.pdf") []
           (Path (txt "figs")) target_dir 1 3 two_figures _ [] (txt ".pdf")
           eq_refl eq_refl eq_refl).
Defined.

Lemma strip_graphicspath_inner_braces_witness :
  strip_graphicspath (txt "\graphicspath{{" ++ txt "../Figures/" ++ txt "}}"
                        ++ nl :: txt "\begin{document}")
  = rbrace :: strip_graphicspath (nl :: txt "\begin{document}").
Proof.
  exact (strip_graphicspath_inner_braces (txt "../Figures/")
           (nl :: txt "\begin{document}") eq_refl).
Defined.

Lemma aux_file_single_occurrence_witness :
  aux_file (txt "../paper/Main" ++ txt ".tex") = txt "../paper/Main" ++ txt ".aux".
Proof. exact (aux_file_single_occurrence (txt "../paper/Main") eq_refl). Defined.

Lemma aux_file_without_tex_witness :
  aux_file (txt "Main.ltx") = txt "Main.ltx"
  /\ (path_exists SimpleFs.simple_os (Path (txt "Main.ltx")) SimpleFs.uncompiled
      = Done true ->
      aux_file_errors SimpleFs.simple_os (txt "Main.ltx") SimpleFs.uncompiled
      = Done []).
Proof.
  exact (aux_file_without_tex _ SimpleFs.simple_os (txt "Main.ltx")
           SimpleFs.uncompiled eq_refl).
Defined.

Lemma main_success_wrote_main_tex_witness :
  fst working_run = Done 0
  /\ SimpleFs.lookup transformed_main (SimpleFs.files (fst (snd working_run)))
     = Some (txt "\includegraphics{Fig1}" ++ nl :: txt "\bibliography{References}")
  /\ exists wp content0 w3 w1 content l prints,
       read_text SimpleFs.simple_os tmp_tex
                 (snd (os_system SimpleFs.simple_os
                         (latexpand_command (txt "Main.tex")
                                            (Path (txt "../latexpand"))) wp))
       = Done content0
       /\ os_chdir SimpleFs.simple_os target_dir w3 = (Done tt, w1)
       /\ read_text SimpleFs.simple_os (Path (txt "Main.tex")) w1 = Done content
       /\ write_text SimpleFs.simple_os (Path (txt "Main.tex"))
                     (rewritten_text (extract_figure_names content0) content) w1
          = (Done tt, fst (snd working_run))
       /\ snd (snd working_run)
          = l ++ Chdir target_dir :: reread_line
              :: Write (Path (txt "Main.tex"))
                       (rewritten_text (extract_figure_names content0) content)
              :: prints
       /\ In (Move tmp_tex transformed_main) l
       /\ forallb is_print prints = true.
Proof.
  split; [reflexivity|]. split; [reflexivity|].
  exact (main_success_wrote_main_tex _ SimpleFs.simple_os (txt "Main.tex")
           (txt "../Figures") (txt "../latexpand") working_project []
           (snd working_run) eq_refl).
Defined.

Lemma validate_inputs_independent_witness :
  validate_inputs SimpleFs.simple_os (txt "Main.tex") (Path (txt "../Figures"))
                  (Path (txt "../latexpand")) SimpleFs.uncompiled
  = Done (check true (main_file_message (txt "Main.tex"))
          ++ check false (aux_file_message (txt "Main.tex"))
          ++ check true (figure_path_message (Path (txt "../Figures")))
          ++ (if true
              then check (negb false)
                         (latexpand_directory_message (Path (txt "../latexpand")))
              else [latexpand_missing_message (Path (txt "../latexpand"))])).
Proof.
  exact (validate_inputs_independent _ SimpleFs.simple_os (txt "Main.tex")
           (Path (txt "../Figures")) (Path (txt "../latexpand"))
           SimpleFs.uncompiled true false true true false
           eq_refl eq_refl eq_refl eq_refl (fun _ => eq_refl)).
Defined.

Lemma validation_gate_witness :
  (exists prints,
      main SimpleFs.simple_os (txt "Main.tex") (txt "../Figures")
           (txt "../latexpand") (SimpleFs.uncompiled, [])
      = (Done 1, (SimpleFs.uncompiled, [] ++ prints))
      /\ forallb is_print prints = true)
  /\ (exists prints,
        main SimpleFs.simple_os long_name (txt "../Figures")
             (txt "../latexpand") (SimpleFs.uncompiled, [])
        = (Raised (SimpleFs.name_too_long (Path long_name)),
           (SimpleFs.uncompiled, [] ++ prints))
        /\ forallb is_print prints = true).
Proof.
  split.
  - exact (proj1 (validation_gate _ SimpleFs.simple_os (txt "Main.tex")
                    (txt "../Figures") (txt "../latexpand") SimpleFs.uncompiled [])
             (aux_file_message (txt "Main.tex")) [] eq_refl).
  - exact (proj2 (validation_gate _ SimpleFs.simple_os long_name
                    (txt "../Figures") (txt "../latexpand") SimpleFs.uncompiled [])
             (SimpleFs.name_too_long (Path long_name)) eq_refl).
Defined.

Lemma copy_loop_missing_reference_witness :
  copy_loop SimpleFs.simple_os 0 [txt "a"; txt "sub/b.png"] (Path (txt "figs"))
            target_dir 0 2 (SimpleFs.locked_figure, [])
  = copy_loop SimpleFs.simple_os 1 [txt "sub/b.png"] (Path (txt "figs"))
              target_dir 0 2 (SimpleFs.locked_figure, [] ++ [warning_line (txt "a")]).
Proof.
  exact (copy_loop_missing_reference _ SimpleFs.simple_os 0 (txt "a")
           [txt "sub/b.png"] (Path (txt "figs")) target_dir 0 2
           SimpleFs.locked_figure [] eq_refl eq_refl).
Defined.

Lemma copy_loop_copy_raises_witness :
  copy_loop SimpleFs.simple_os 1 [txt "sub/b.png"; txt "c"] (Path (txt "figs"))
            target_dir 0 3 (SimpleFs.locked_figure, [])
  = (Done false,
     (SimpleFs.locked_figure,
      [] ++ [Copy (child (Path (txt "figs")) (txt "b" ++ txt ".png"))
                  (child target_dir (txt "Fig" ++ decimal (1 + 1) ++ txt ".png"));
             copy_error_line (child (Path (txt "figs")) (txt "b" ++ txt ".png"))
                             (txt "Permission denied")])).
Proof.
  exact (copy_loop_copy_raises _ SimpleFs.simple_os 1 (txt "sub/b.png") [txt "c"]
           (Path (txt "figs")) target_dir 0 3 SimpleFs.locked_figure
           SimpleFs.locked_figure [] (txt ".png") (txt "Permission denied")
           eq_refl eq_refl eq_refl).
Defined.

Lemma copy_figures_false_after_copy_error_witness :
  exists src dst e l,
    snd (snd locked_copy) = l ++ [Copy src dst; copy_error_line src e].
Proof.
  exact (copy_figures_false_after_copy_error _ SimpleFs.simple_os [txt "b"]
           (Path (txt "figs")) target_dir locked_with_tmp
           ([] ++ [read_line; found_line 1]) (snd locked_copy) eq_refl).
Defined.

Lemma copy_loop_exists_raises_witness :
  copy_loop SimpleFs.simple_os 0 [long_name; txt "a"] (Path (txt "figs"))
            target_dir 0 2 (two_figures, [])
  = (Raised (SimpleFs.name_too_long (child (Path (txt "figs"))
                                           (long_name ++ txt ".pdf"))),
     (two_figures, [])).
Proof.
  exact (copy_loop_exists_raises _ SimpleFs.simple_os 0 long_name [txt "a"]
           (Path (txt "figs")) target_dir 0 2 two_figures []
           (SimpleFs.name_too_long (child (Path (txt "figs"))
                                          (long_name ++ txt ".pdf")))
           eq_refl eq_refl).
Defined.

Lemma copy_figures_all_missing_witness :
  copy_figures SimpleFs.simple_os [txt "x"; txt "plots/y.png"] (Path (txt "figs"))
               target_dir (two_figures, [])
  = (Done true,
     (two_figures,
      [] ++ map warning_line [txt "x"; txt "plots/y.png"] ++ [summary_line 0 2])).
Proof.
  exact (copy_figures_all_missing _ SimpleFs.simple_os [txt "x"; txt "plots/y.png"]
           (Path (txt "figs")) target_dir two_figures [] eq_refl).
Defined.

(** ** Renaming the figures in the text *)

Section RenameFacts.

Lemma replace_absent (old new s : text) :
  old <> [] -> occurs old s = false -> replace old new s = s.
Proof.
  intros Ho H. unfold replace. destruct old; [congruence|].
  now apply replace_from_absent.
Qed.

(** X18: a text in which none of the figure file names occurs is left
    unchanged by the renaming. *)
Theorem rename_figures_absent (figures : list text) (i : nat) (content : text) :
  forallb (fun figure =>
             negb (text_eqb (name (Path figure)) [])
             && negb (occurs (name (Path figure)) content)) figures = true ->
  rename_figures i figures content = content.
Proof.
  revert i. induction figures as [|figure figures IH]; intros i H; [reflexivity|].
  cbn [forallb] in H. apply andb_prop in H as [Hf Hr].
  apply andb_prop in Hf as [Hn Ho]. cbn [rename_figures].
  rewrite replace_absent.
  - now apply IH.
  - intros E. rewrite E in Hn. discriminate.
  - now apply negb_true_iff in Ho.
Qed.

Lemma replace_from_skip (old new x b : text) :
  replace_from old new (x ++ b) (length x) = replace_from old new b 0.
Proof.
  induction x as [|c x IH]; [reflexivity|]. exact IH.
Qed.

Lemma length_removelast_S (l : text) :
  l <> [] -> length l = S (length (removelast l)).
Proof.
  induction l as [|c l IH]; [congruence|]. intros _.
  destruct l as [|d l]; [reflexivity|].
  change (removelast (c :: d :: l)) with (c :: removelast (d :: l)).
  cbn [length]. f_equal. apply IH. discriminate.
Qed.

Lemma replace_from_first (old new a b : text) :
  old <> [] -> occurs old (a ++ removelast old) = false ->
  replace_from old new (a ++ old ++ b) 0 = a ++ new ++ replace_from old new b 0.
Proof.
  intros Ho. induction a as [|c a IH]; intros H.
  - destruct old as [|x old]; [congruence|]. cbn [app].
    cbn [replace_from].
    change (x :: old ++ b) with ((x :: old) ++ b). rewrite strip_prefix_app.
    f_equal. replace (length (x :: old) - 1) with (length old) by (simpl; lia).
    apply replace_from_skip.
  - change ((c :: a) ++ ?x) with (c :: (a ++ x)) in *.
    apply occurs_cons in H as [Hc Hr]. cbn [replace_from].
    destruct (strip_prefix old (c :: a ++ old ++ b)) as [r|] eqn:E.
    + exfalso.
      assert (Ex : c :: a ++ old ++ b
                   = (c :: a ++ removelast old) ++ (last old 0%N :: b)).
      { rewrite (app_removelast_last 0%N Ho) at 1.
        repeat (rewrite <- app_assoc || rewrite <- app_comm_cons). reflexivity. }
      rewrite Ex in E. apply strip_prefix_within in E as [r' E'].
      * congruence.
      * cbn [length]. rewrite length_app, (length_removelast_S old Ho). lia.
    + cbn [app]. f_equal. now apply IH.
Qed.

(** X19: the renaming is a replacement in the whole text: the first
    occurrence of the file name of a figure becomes [Fig<i+1>] wherever it
    stands, inside a directive or not, and the renaming goes on after it. *)
Theorem rename_figures_first_occurrence (i : nat) (figure a b : text) :
  name (Path figure) <> [] ->
  occurs (name (Path figure)) (a ++ removelast (name (Path figure))) = false ->
  rename_figures i [figure] (a ++ name (Path figure) ++ b)
  = a ++ (txt "Fig" ++ decimal (i + 1)) ++ rename_figures i [figure] b.
Proof.
  intros Hn Ho. cbn [rename_figures]. unfold replace.
  destruct (name (Path figure)) as [|x n] eqn:E; [congruence|].
  now apply replace_from_first.
Qed.

End RenameFacts.

(** ** An expansion that succeeds *)

Section ExpansionAccepted.
Variable W : Type.
Variable sys : os W.

(** X20: when the expansion tool returns status 0 and leaves a [tmp.tex]
    that exists and is not empty, the expansion stage returns [True] having
    only announced and called the tool. *)
Theorem expand_accepts (main_name : text) (latexpand_path : path)
        (w w' : W) (log : list event) (size : N) :
  os_system sys (latexpand_command main_name latexpand_path) w = (Done 0%Z, w') ->
  path_exists sys tmp_tex w' = Done true ->
  stat_size sys tmp_tex w' = Done size ->
  size <> 0%N ->
  expand sys main_name latexpand_path (w, log)
  = (Done true,
     (w', log ++ [Print (txt "Running: " ++ txt "LaTeX expansion");
                  System (latexpand_command main_name latexpand_path)])).
Proof.
  intros Hs He Hz Hn. unfold expand, run_command_with_check.
  cbv [bind print try call ret query_exn fst snd].
  rewrite Hs. cbn [Z.eqb negb]. rewrite He. cbn [negb]. rewrite Hz.
  apply N.eqb_neq in Hn. rewrite Hn. now rewrite <- app_assoc.
Qed.

End ExpansionAccepted.

Lemma rename_figures_absent_witness :
  rename_figures 0 [txt "plots/a.png"; txt "b"] (txt "\section{Results}")
  = txt "\section{Results}".
Proof.
  exact (rename_figures_absent [txt "plots/a.png"; txt "b"] 0
           (txt "\section{Results}") eq_refl).
Defined.

Lemma rename_figures_first_occurrence_witness :
  rename_figures 2 [txt "plots/demo"]
                 (txt "The " ++ name (Path (txt "plots/demo")) ++ txt " shows")
  = txt "The " ++ (txt "Fig" ++ decimal (2 + 1))
      ++ rename_figures 2 [txt "plots/demo"] (txt " shows").
Proof.
  apply (rename_figures_first_occurrence 2 (txt "plots/demo") (txt "The ")
           (txt " shows")).
  - vm_compute. discriminate.
  - reflexivity.
Defined.

Lemma expand_accepts_witness :
  expand SimpleFs.simple_os (txt "Main.tex") (Path (txt "../latexpand"))
         (working_project, [])
  = (Done true,
     (snd (os_system SimpleFs.simple_os
             (latexpand_command (txt "Main.tex") (Path (txt "../latexpand")))
             working_project),
      [] ++ [Print (txt "Running: " ++ txt "LaTeX expansion");
             System (latexpand_command (txt "Main.tex") (Path (txt "../latexpand")))])).
Proof.
  apply (expand_accepts _ SimpleFs.simple_os (txt "Main.tex")
           (Path (txt "../latexpand")) working_project _ [] 42%N);
    [reflexivity | reflexivity | reflexivity | discriminate].
Defined.
